(** * happy-cli machine client ([src/api/apiMachine.ts])

    A shallow embedding of [ApiMachineClient]: the two optimistic-concurrency
    updaters ([updateMachineMetadata], [updateDaemonState]), the consolidated
    [rpc-request] handler, the [update] handler and the keep-alive timer,
    followed by the properties of the machine-client specification.

    JavaScript values are restricted to JSON-like data, numbers to integers.
    A handler written in the source as a callback that mutates [this.machine]
    becomes a function in a state-and-exception monad over [Machine]; a handler
    whose observable behaviour is a sequence of calls (the response callback,
    the injected RPC handlers, [setTimeout]) becomes a function into a trace
    monad. *)

From Stdlib Require Import ZArith String List Lia DecimalString.
From stdpp Require Import base option list gmap strings.

Set Warnings "-register-all".
Open Scope string_scope.
Open Scope list_scope.
Open Scope Z_scope.

(** ** JavaScript values *)

Inductive jsval : Type :=
| JUndefined
| JNull
| JBool (b : bool)
| JNum (n : Z)
| JStr (s : string)
| JArr (items : list jsval)
| JObj (fields : list (string * jsval)).

(** [ToBoolean]: what [if (v)], [!v] and [v || w] test. *)
Definition truthy (v : jsval) : bool :=
  match v with
  | JUndefined | JNull => false
  | JBool b => b
  | JNum n => negb (n =? 0)%Z
  | JStr s => negb (s =? "")%string
  | JArr _ | JObj _ => true
  end.

Fixpoint assoc (k : string) (fields : list (string * jsval)) : jsval :=
  match fields with
  | [] => JUndefined
  | (k', v) :: rest => if (k =? k')%string then v else assoc k rest
  end.

(** Property read [v.k] on a value that is neither [null] nor [undefined],
    for a key that no primitive or array carries by itself (the keys read
    in this file are [directory], [sessionId] and [message]). *)
Definition js_get (v : jsval) (k : string) : jsval :=
  match v with
  | JObj fields => assoc k fields
  | _ => JUndefined
  end.

Definition show_Z (n : Z) : string := NilZero.string_of_int (Z.to_int n).

(** [String(v)]. Array elements that are [null] or [undefined] print as the
    empty string, as [Array.prototype.join] does. *)
Fixpoint js_String (v : jsval) : string :=
  match v with
  | JUndefined => "undefined"
  | JNull => "null"
  | JBool true => "true"
  | JBool false => "false"
  | JNum n => show_Z n
  | JStr s => s
  | JArr items =>
      (fix join (l : list jsval) : string :=
         match l with
         | [] => ""
         | x :: rest =>
             let shown := match x with
                          | JUndefined | JNull => ""
                          | _ => js_String x
                          end in
             match rest with
             | [] => shown
             | _ :: _ => shown +:+ "," +:+ join rest
             end
         end) items
  | JObj _ => "[object Object]"
  end.

(** ** Exceptions *)

(** What a [throw] can carry: an [Error] instance (with its [name] and
    [message]) or any other value. *)
Inductive thrown : Type :=
| ThrowError (name message : string)
| ThrowValue (v : jsval).

Inductive completion (A : Type) : Type :=
| Normal (a : A)
| Throw (e : thrown).
Arguments Normal {A} a.
Arguments Throw {A} e.

(** [new Error(msg)] *)
Definition new_Error (msg : string) : thrown := ThrowError "Error" msg.

Definition is_nullish (v : jsval) : bool :=
  match v with
  | JUndefined | JNull => true
  | _ => false
  end.

(** [error.message] for a caught [error]: reading a property of [null] or
    [undefined] throws a [TypeError]. *)
Definition thrown_message (e : thrown) : completion jsval :=
  match e with
  | ThrowError _ msg => Normal (JStr msg)
  | ThrowValue v =>
      if is_nullish v
      then Throw (ThrowError "TypeError"
                    ("Cannot read properties of " +:+ js_String v +:+ " (reading 'message')"))
      else Normal (js_get v "message")
  end.

(** [String(error)]; for an [Error] instance this is [Error.prototype.toString]. *)
Definition thrown_String (e : thrown) : string :=
  match e with
  | ThrowError name msg =>
      if (msg =? "")%string then name
      else if (name =? "")%string then msg
      else name +:+ ": " +:+ msg
  | ThrowValue v => js_String v
  end.

(** ** The data model ([./types]) *)

(** [Machine], with the fields [ApiClient.getMachine] fills in. Values are
    decoded JSON; versions are server-assigned integers. *)
Record Machine : Type := mkMachine {
  id : string;
  metadata : jsval;
  metadataVersion : Z;
  daemonState : jsval;
  daemonStateVersion : Z;
  active : bool;
  activeAt : Z;
  createdAt : Z;
  updatedAt : Z
}.

Definition set_metadata (v : jsval) (m : Machine) : Machine :=
  mkMachine (id m) v (metadataVersion m) (daemonState m) (daemonStateVersion m)
            (active m) (activeAt m) (createdAt m) (updatedAt m).
Definition set_metadataVersion (n : Z) (m : Machine) : Machine :=
  mkMachine (id m) (metadata m) n (daemonState m) (daemonStateVersion m)
            (active m) (activeAt m) (createdAt m) (updatedAt m).
Definition set_daemonState (v : jsval) (m : Machine) : Machine :=
  mkMachine (id m) (metadata m) (metadataVersion m) v (daemonStateVersion m)
            (active m) (activeAt m) (createdAt m) (updatedAt m).
Definition set_daemonStateVersion (n : Z) (m : Machine) : Machine :=
  mkMachine (id m) (metadata m) (metadataVersion m) (daemonState m) n
            (active m) (activeAt m) (createdAt m) (updatedAt m).

(** ** Code that mutates [this.machine] *)

(** A computation over the client's [Machine] that either completes or
    throws; assignments made before a [throw] stay made. *)
Definition SM (A : Type) : Type := Machine -> completion A * Machine.

Definition sm_ret {A} (a : A) : SM A := fun m => (Normal a, m).
Definition sm_bind {A B} (c : SM A) (k : A -> SM B) : SM B :=
  fun m => match c m with
           | (Normal a, m') => k a m'
           | (Throw e, m') => (Throw e, m')
           end.
Definition sm_throw {A} (e : thrown) : SM A := fun m => (Throw e, m).
Definition sm_lift {A} (c : completion A) : SM A := fun m => (c, m).
Definition sm_read {A} (f : Machine -> A) : SM A := fun m => (Normal (f m), m).
Definition sm_assign (f : Machine -> Machine) : SM unit := fun m => (Normal tt, f m).

Declare Scope sm_scope.
Delimit Scope sm_scope with sm.
Notation "x <- c ;; k" := (sm_bind c (fun x => k))
  (at level 100, c at next level, right associativity) : sm_scope.
Notation "c ;; k" := (sm_bind c (fun _ => k))
  (at level 100, right associativity) : sm_scope.

(** ** Code observed through the calls it makes *)

(** The closure the stop-daemon branch hands to [setTimeout]. *)
Inductive timer_task : Type :=
| ShutdownTask.

Inductive event : Type :=
| Respond (response : string)                        (* callback(response) *)
| CallSpawnSession (directory sessionId : jsval)     (* this.spawnSession(..) *)
| CallStopSession (sessionId : jsval)                (* this.stopSession(..) *)
| CallRequestShutdown                                (* this.requestShutdown() *)
| SetTimeout (task : timer_task) (delay : Z).        (* setTimeout(task, delay) *)

(** The calls made so far, oldest first, and how the code ended. *)
Definition TR (A : Type) : Type := (list event * completion A)%type.

Definition tr_ret {A} (a : A) : TR A := ([], Normal a).
Definition tr_bind {A B} (c : TR A) (k : A -> TR B) : TR B :=
  match c with
  | (es, Normal a) => let (es', r) := k a in (es ++ es', r)
  | (es, Throw e) => (es, Throw e)
  end.
Definition tr_throw {A} (e : thrown) : TR A := ([], Throw e).
Definition tr_lift {A} (c : completion A) : TR A := ([], c).
Definition tr_do (ev : event) : TR unit := ([ev], Normal tt).
(** A call into injected code: the call is observed, its outcome is the
    callee's. *)
Definition tr_call {A} (ev : event) (outcome : completion A) : TR A := ([ev], outcome).
(** [try { body } catch (error) { handler }] *)
Definition try_catch {A} (body : TR A) (handler : thrown -> TR A) : TR A :=
  match body with
  | (es, Normal a) => (es, Normal a)
  | (es, Throw e) => let (es', r) := handler e in (es ++ es', r)
  end.

Declare Scope tr_scope.
Delimit Scope tr_scope with tr.
Notation "x <- c ;; k" := (tr_bind c (fun x => k))
  (at level 100, c at next level, right associativity) : tr_scope.
Notation "c ;; k" := (tr_bind c (fun _ => k))
  (at level 100, right associativity) : tr_scope.

(** Modelled from the spec: [TrackedSession] of [@/daemon/api/types], which
    the sources import but do not contain; the handle of the process-spawning
    collaborator with its optional string fields. *)
Record TrackedSession : Type := mkTrackedSession {
  happySessionId : option string;
  pid : Z;
  error : option string;
  message : option string
}.

(** An optional string field as the value a property read yields. *)
Definition field (o : option string) : jsval :=
  match o with
  | Some s => JStr s
  | None => JUndefined
  end.

(** The three [private ...?:] handler fields of the client. Each handler is
    given by the outcome of calling it: it returns or it throws (for
    [spawnSession], the promise resolves or rejects). *)
Record RpcHandlers : Type := mkRpcHandlers {
  spawnSession : option (jsval -> jsval -> completion (option TrackedSession));
  stopSession : option (jsval -> completion bool);
  requestShutdown : option (completion unit)
}.

Definition no_handlers : RpcHandlers := mkRpcHandlers None None None.

Definition setRPCHandlers
    (spawn : jsval -> jsval -> completion (option TrackedSession))
    (stop : jsval -> completion bool)
    (shutdown : completion unit) : RpcHandlers :=
  mkRpcHandlers (Some spawn) (Some stop) (Some shutdown).

(** ** The keep-alive timer and the connection events *)

(** The callback of the one [setInterval] call of the client. *)
Inductive interval_task : Type :=
| MachineAliveTask.

(** The client's [keepAliveInterval] field together with what it acts on:
    the runtime's table of running interval timers (callback and period in
    milliseconds, by handle), the next handle [setInterval] returns, the
    [socket.emit] calls made (oldest first) and whether the socket was
    closed. *)
Record Connection : Type := mkConnection {
  keepAliveInterval : option nat;
  intervals : gmap nat (interval_task * Z);
  next_handle : nat;
  outbox : list (string * jsval);
  closed : bool
}.

Definition new_connection : Connection := mkConnection None ∅ 0%nat [] false.

Definition stopKeepAlive (c : Connection) : Connection :=
  match keepAliveInterval c with
  | Some handle =>
      mkConnection None (delete handle (intervals c)) (next_handle c)
                   (outbox c) (closed c)
  | None => c
  end.

Definition startKeepAlive (c : Connection) : Connection :=
  let c := stopKeepAlive c in
  mkConnection (Some (next_handle c))
               (<[next_handle c := (MachineAliveTask, 20000)]> (intervals c))
               (S (next_handle c)) (outbox c) (closed c).

(** What a tick of the interval timer emits; [now] is [Date.now()]. *)
Definition run_interval (m : Machine) (now : Z) (task : interval_task)
    : string * jsval :=
  match task with
  | MachineAliveTask =>
      ("machine-alive", JObj [("machineId", JStr (id m)); ("time", JNum now)])
  end.

Definition emit (name : string) (data : jsval) (c : Connection) : Connection :=
  mkConnection (keepAliveInterval c) (intervals c) (next_handle c)
               (outbox c ++ [(name, data)]) (closed c).

Definition rpc_register (method : string) : Connection -> Connection :=
  emit "rpc-register" (JObj [("method", JStr method)]).

Definition register_all (m : Machine) (c : Connection) : Connection :=
  rpc_register (id m +:+ ":stop-daemon")
    (rpc_register (id m +:+ ":stop-session")
       (rpc_register (id m +:+ ":spawn-happy-session") c)).

(** The socket events [connect()] subscribes to, besides [rpc-request] and
    [update]. The [connect] handler also starts [updateDaemonState] without
    awaiting it; that call acts on the machine only. *)
Inductive socket_event : Type :=
| Connect
| Disconnect
| Reconnect
| ConnectError
| SocketError.

Definition on_socket_event (m : Machine) (ev : socket_event) (c : Connection)
    : Connection :=
  match ev with
  | Connect => startKeepAlive (register_all m c)
  | Disconnect => stopKeepAlive c
  | Reconnect => register_all m c
  | ConnectError | SocketError => c
  end.

Definition shutdown (c : Connection) : Connection :=
  let c := stopKeepAlive c in
  mkConnection (keepAliveInterval c) (intervals c) (next_handle c) (outbox c) true.

(** What happens to a client over its life: socket events and [shutdown()]
    calls, in order. *)
Inductive lifecycle : Type :=
| Socket (ev : socket_event)
| Shutdown.

Definition lifecycle_step (m : Machine) (c : Connection) (l : lifecycle)
    : Connection :=
  match l with
  | Socket ev => on_socket_event m ev c
  | Shutdown => shutdown c
  end.

Definition live (m : Machine) (ls : list lifecycle) : Connection :=
  fold_left (lifecycle_step m) ls new_connection.

(** The timer table holds the keep-alive timer the client remembers, with
    its callback and its period of 20 s, and nothing else. *)
Definition tracked (c : Connection) : Prop :=
  intervals c =
  match keepAliveInterval c with
  | Some handle => {[handle := (MachineAliveTask, 20000)]}
  | None => ∅
  end.

Definition beating (c : Connection) : Prop :=
  exists handle,
    keepAliveInterval c = Some handle /\
    intervals c = {[handle := (MachineAliveTask, 20000)]}.

Definition connects (n : nat) : list lifecycle := repeat (Socket Connect) n.

(** The acknowledgement of [machine-update-metadata] / [machine-update-state]:
    the three shapes of the [cb] answer in [DaemonToServerEvents]. The payload
    is the [metadata] (resp. [daemonState]) field as received. *)
Inductive answer : Type :=
| AnsSuccess (version : Z) (payload : jsval)
| AnsVersionMismatch (version : Z) (payload : jsval)
| AnsError.

(** The data argument of the two [emitWithAck] calls. *)
Record commit : Type := mkCommit {
  c_event : string;
  c_machineId : string;
  c_body : string;
  c_expectedVersion : Z
}.

(** Modelled from the spec: [Update] and [UpdateMachineBody] of [./types],
    which the sources import but do not contain. The body of an update
    envelope carries its type tag [t], the target [machineId] and the
    optional sub-updates [metadata] and [daemonState], each a
    [{value, version}] object. *)
Record Versioned : Type := mkVersioned { value : jsval; version : Z }.

Record UpdateBody : Type := mkUpdateBody {
  t : string;
  machineId : string;
  u_metadata : option Versioned;
  u_daemonState : option Versioned
}.

(** One write to [this.machine]: an attempt of either updater together
    with the reply it received, or an [update] event. *)
Inductive mutation : Type :=
| CommitMetadata (handler : jsval -> jsval) (reply : answer)
| CommitDaemonState (handler : jsval -> jsval) (reply : answer)
| Push (body : UpdateBody).

(** ** A codec and data to run the model with *)

Definition dquote : string := String (Ascii.ascii_of_nat 34) EmptyString.

(** JSON text without escapes: the JSON text of any value whose strings
    need none. *)
Fixpoint sample_stringify (v : jsval) : string :=
  match v with
  | JUndefined | JNull => "null"
  | JBool true => "true"
  | JBool false => "false"
  | JNum n => show_Z n
  | JStr s => dquote +:+ s +:+ dquote
  | JArr items =>
      "[" +:+
      (fix join (l : list jsval) : string :=
         match l with
         | [] => ""
         | x :: rest =>
             match rest with
             | [] => sample_stringify x
             | _ :: _ => sample_stringify x +:+ "," +:+ join rest
             end
         end) items +:+ "]"
  | JObj fields =>
      "{" +:+
      (fix join (first : bool) (l : list (string * jsval)) : string :=
         match l with
         | [] => ""
         | (_, JUndefined) :: rest => join first rest
         | (k, x) :: rest =>
             (if first then "" else ",") +:+ dquote +:+ k +:+ dquote +:+ ":"
             +:+ sample_stringify x +:+ join false rest
         end) true fields +:+ "}"
  end.

(** The params of a spawn request for [/tmp]. *)
Definition tmp_params : jsval := JObj [("directory", JStr "/tmp")].

(** A parser that knows a few texts: [null], [true], [false], [{}], [[]]
    and the text of [tmp_params]; the one other text it is given below, an
    opening brace alone, is rejected by [JSON.parse] as well. *)
Definition sample_parse (s : string) : jsval + string :=
  if (s =? "null")%string then inl JNull
  else if (s =? "true")%string then inl (JBool true)
  else if (s =? "false")%string then inl (JBool false)
  else if (s =? "{}")%string then inl (JObj [])
  else if (s =? "[]")%string then inl (JArr [])
  else if (s =? sample_stringify tmp_params)%string then inl tmp_params
  else inr "Unexpected end of JSON input".

(** A machine [m1] holding metadata at version 3. *)
Definition sample_machine : Machine :=
  mkMachine "m1" (JObj [("host", JStr "laptop")]) 3 JNull 0 true 0 0 0.

(** A transform: [(metadata) => ({ previous: metadata, displayName: 'desk' })]. *)
Definition rename (metadata : jsval) : jsval :=
  JObj [("previous", metadata); ("displayName", JStr "desk")].

(** What another writer stored on the server in the meantime. *)
Definition server_value : jsval := JObj [("host", JStr "server")].

(** Handlers whose spawn promise rejects with [undefined]. *)
Definition rejecting_handlers : RpcHandlers :=
  setRPCHandlers (fun _ _ => Throw (ThrowValue JUndefined))
                 (fun _ => Normal true) (Normal tt).

(** Handlers of a daemon that spawns session [s1] as process 4242. *)
Definition working_handlers : RpcHandlers :=
  setRPCHandlers
    (fun _ _ => Normal (Some (mkTrackedSession (Some "s1") 4242 None (Some "spawned"))))
    (fun _ => Normal true) (Normal tt).

(** A metadata sub-update that carries version 1 while the client holds
    version 3. *)
Definition stale_update : UpdateBody :=
  mkUpdateBody "update-machine" "m1" (Some (mkVersioned (JObj []) 1)) None.

(** Three writes in a row: a refused commit, the accepted retry, a push. *)
Definition sample_writes : list mutation :=
  [CommitMetadata rename (AnsVersionMismatch 5 server_value);
   CommitMetadata rename (AnsSuccess 6 (rename server_value));
   Push (mkUpdateBody "update-machine" "m1" None
           (Some (mkVersioned (JStr "{}") 1)))].

Section MachineClient.

(** The runtime's JSON codec. [JSON_parse s] is [inl v] when [s] is JSON
    text for [v] and [inr msg] when [JSON.parse(s)] throws a [SyntaxError]
    with message [msg]. *)
Variable JSON_parse : string -> jsval + string.
Variable JSON_stringify : jsval -> string.

Definition parseJSON (s : string) : completion jsval :=
  match JSON_parse s with
  | inl v => Normal v
  | inr msg => Throw (ThrowError "SyntaxError" msg)
  end.

(** [typeof x === 'string' ? JSON.parse(x) : x] *)
Definition parse_if_string (x : jsval) : completion jsval :=
  match x with
  | JStr s => parseJSON s
  | _ => Normal x
  end.

(** *** The versioned updaters *)

(** The data [updateMachineMetadata] emits on [machine-update-metadata]
    when the client's machine is [m]. *)
Definition metadataCommit (handler : jsval -> jsval) (m : Machine) : commit :=
  mkCommit "machine-update-metadata" (id m)
           (JSON_stringify (handler (metadata m))) (metadataVersion m).

(** The callback [updateMachineMetadata] hands to [backoff]: one attempt.
    [emitWithAck] is the server's reply to the emitted commit. *)
Definition updateMachineMetadata_attempt
    (handler : jsval -> jsval) (emitWithAck : commit -> answer) : SM unit :=
  (answer <- sm_read (fun m => emitWithAck (metadataCommit handler m)) ;;
   match answer with
   | AnsSuccess version payload =>
       v <- sm_lift (parse_if_string payload) ;;
       sm_assign (set_metadata v) ;;
       sm_assign (set_metadataVersion version)
   | AnsVersionMismatch version payload =>
       local <- sm_read metadataVersion ;;
       (if (version >? local)%Z
        then sm_assign (set_metadataVersion version) ;;
             v <- sm_lift (parse_if_string payload) ;;
             sm_assign (set_metadata v)
        else sm_ret tt) ;;
       sm_throw (new_Error "Metadata version mismatch")
   | AnsError => sm_ret tt
   end)%sm.

Definition daemonStateCommit (handler : jsval -> jsval) (m : Machine) : commit :=
  mkCommit "machine-update-state" (id m)
           (JSON_stringify (handler (daemonState m))) (daemonStateVersion m).

Definition updateDaemonState_attempt
    (handler : jsval -> jsval) (emitWithAck : commit -> answer) : SM unit :=
  (answer <- sm_read (fun m => emitWithAck (daemonStateCommit handler m)) ;;
   match answer with
   | AnsSuccess version payload =>
       v <- sm_lift (parse_if_string payload) ;;
       sm_assign (set_daemonState v) ;;
       sm_assign (set_daemonStateVersion version)
   | AnsVersionMismatch version payload =>
       local <- sm_read daemonStateVersion ;;
       (if (version >? local)%Z
        then sm_assign (set_daemonStateVersion version) ;;
             v <- sm_lift (parse_if_string payload) ;;
             sm_assign (set_daemonState v)
        else sm_ret tt) ;;
       sm_throw (new_Error "Daemon state version mismatch")
   | AnsError => sm_ret tt
   end)%sm.

(** Modelled from the spec: [backoff] of [@/utils/time], which the sources
    import but do not contain. The Retry Policy re-invokes the whole step
    after every failure and stops at the first attempt that completes; it
    has no retry ceiling. The server is a script of replies, one per
    attempt, so a run is followed for as many attempts as the script is
    long: [true] when an attempt completed, [false] when the policy is
    still retrying after the last scripted reply. *)
Fixpoint backoff (attempt : (commit -> answer) -> SM unit)
    (script : list (commit -> answer)) (m : Machine) : bool * Machine :=
  match script with
  | [] => (false, m)
  | reply :: later =>
      match attempt reply m with
      | (Normal _, m') => (true, m')
      | (Throw _, m') => backoff attempt later m'
      end
  end.

(** The machine each attempt of the run above starts from. *)
Fixpoint attempts (attempt : (commit -> answer) -> SM unit)
    (script : list (commit -> answer)) (m : Machine) : list Machine :=
  match script with
  | [] => []
  | reply :: later =>
      m :: match attempt reply m with
           | (Normal _, _) => []
           | (Throw _, m') => attempts attempt later m'
           end
  end.

Definition updateMachineMetadata (handler : jsval -> jsval) :=
  backoff (updateMachineMetadata_attempt handler).

Definition updateDaemonState (handler : jsval -> jsval) :=
  backoff (updateDaemonState_attempt handler).

(** *** The [update] handler *)

Definition on_update (body : UpdateBody) : SM unit :=
  (mid <- sm_read id ;;
   if (t body =? "update-machine")%string && (machineId body =? mid)%string
   then
     match u_metadata body with
     | Some u =>
         v <- sm_lift (parse_if_string (value u)) ;;
         sm_assign (set_metadata v) ;;
         sm_assign (set_metadataVersion (version u))
     | None => sm_ret tt
     end ;;
     match u_daemonState body with
     | Some u =>
         v <- sm_lift (parse_if_string (value u)) ;;
         sm_assign (set_daemonState v) ;;
         sm_assign (set_daemonStateVersion (version u))
     | None => sm_ret tt
     end
   else sm_ret tt)%sm.

(** *** The [rpc-request] handler *)

Definition spawnMethod (m : Machine) : string := id m +:+ ":spawn-happy-session".
Definition stopMethod (m : Machine) : string := id m +:+ ":stop-session".
Definition stopDaemonMethod (m : Machine) : string := id m +:+ ":stop-daemon".

Definition stop_daemon_ack : string :=
  JSON_stringify
    (JObj [("message",
            JStr "Daemon stop request acknowledged, starting shutdown sequence...")]).

(** The message for a session that was spawned but has not reported its
    id. *)
Definition not_identified (pid : Z) : string :=
  "Session spawned (PID " +:+ show_Z pid
  +:+ ") but no sessionId received from webhook. "
  +:+ "The session process may still be initializing.".

(** [paramObj || {}] *)
Definition or_empty (paramObj : jsval) : jsval :=
  if truthy paramObj then paramObj else JObj [].

(** The body of the [try] block. *)
Definition rpc_request_try (m : Machine) (h : RpcHandlers)
    (method : string) (params : jsval) : TR unit :=
  (if (method =? spawnMethod m)%string then
     match spawnSession h with
     | None => tr_throw (new_Error "Spawn session handler not set")
     | Some spawn =>
         paramObj <- tr_lift (parse_if_string params) ;;
         let directory := js_get (or_empty paramObj) "directory" in
         let sessionId := js_get (or_empty paramObj) "sessionId" in
         if negb (truthy directory)
         then tr_throw (new_Error "Directory is required")
         else
           session <- tr_call (CallSpawnSession directory sessionId)
                              (spawn directory sessionId) ;;
           match session with
           | None => tr_throw (new_Error "Failed to spawn session")
           | Some session =>
               if truthy (field (error session))
               then tr_throw (new_Error (js_String (field (error session))))
               else if negb (truthy (field (happySessionId session)))
               then tr_throw (new_Error (not_identified (pid session)))
               else
                 tr_do (Respond
                          (JSON_stringify
                             (JObj [("sessionId", field (happySessionId session));
                                    ("message", field (message session))])))
           end
     end
   else if (method =? stopMethod m)%string then
     paramObj <- tr_lift (parse_if_string params) ;;
     let sessionId := js_get (or_empty paramObj) "sessionId" in
     match stopSession h with
     | None => tr_throw (new_Error "Stop session handler not set")
     | Some stop =>
         if negb (truthy sessionId)
         then tr_throw (new_Error "Session ID is required")
         else
           success <- tr_call (CallStopSession sessionId) (stop sessionId) ;;
           if negb success
           then tr_throw (new_Error "Session not found or failed to stop")
           else tr_do (Respond
                         (JSON_stringify (JObj [("message", JStr "Session stopped")])))
     end
   else if (method =? stopDaemonMethod m)%string then
     tr_do (Respond stop_daemon_ack) ;;
     tr_do (SetTimeout ShutdownTask 100)
   else tr_throw (new_Error ("Unknown RPC method: " +:+ method)))%tr.

(** The [catch (error)] block. Its first statement logs
    [error.message || error]; the last one answers with
    [error.message || String(error)]. *)
Definition rpc_request_catch (e : thrown) : TR unit :=
  (_ <- tr_lift (thrown_message e) ;;
   msg <- tr_lift (thrown_message e) ;;
   let shown := if truthy msg then msg else JStr (thrown_String e) in
   tr_do (Respond (JSON_stringify (JObj [("error", shown)]))))%tr.

Definition on_rpc_request (m : Machine) (h : RpcHandlers)
    (method : string) (params : jsval) : TR unit :=
  try_catch (rpc_request_try m h method params) rpc_request_catch.

(** What the timer callback of the stop-daemon branch does when it runs;
    [this.requestShutdown] is read at that moment. *)
Definition run_task (h : RpcHandlers) (task : timer_task) : TR unit :=
  match task with
  | ShutdownTask =>
      match requestShutdown h with
      | Some shutdown => tr_call CallRequestShutdown shutdown
      | None => tr_ret tt
      end
  end.

(** The response of the [catch] block to an error with message [msg]. *)
Definition error_response (msg : string) : string :=
  JSON_stringify (JObj [("error", JStr msg)]).

(** The payloads the response callback was called with. *)
Definition responses (es : list event) : list string :=
  omap (fun ev => match ev with
                  | Respond r => Some r
                  | _ => None
                  end) es.

(** The two kinds of response: the [{error: ..}] object of the [catch]
    block, and the payloads of the three branches that succeed. *)
Definition is_error_reply (r : string) : Prop :=
  exists shown, r = JSON_stringify (JObj [("error", shown)]).


(** The ways a run of the [rpc-request] handler can go: the request is
    answered, at once or after the call of a handler; or the call of a
    handler threw [null] or [undefined] and the handler ended on the
    exception of its own [catch] block. *)
Inductive dispatched (h : RpcHandlers) : TR unit -> Prop :=
| answered_at_once r :
    dispatched h ([Respond r], Normal tt)
| answered_after_spawn d s r :
    dispatched h ([CallSpawnSession d s; Respond r], Normal tt)
| answered_after_stop s r :
    dispatched h ([CallStopSession s; Respond r], Normal tt)
| acknowledged_stop_daemon :
    dispatched h ([Respond stop_daemon_ack; SetTimeout ShutdownTask 100],
                  Normal tt)
| spawn_escaped spawn d s v e :
    spawnSession h = Some spawn ->
    spawn d s = Throw (ThrowValue v) ->
    is_nullish v = true ->
    dispatched h ([CallSpawnSession d s], Throw e)
| stop_escaped stop s v e :
    stopSession h = Some stop ->
    stop s = Throw (ThrowValue v) ->
    is_nullish v = true ->
    dispatched h ([CallStopSession s], Throw e).

(** No call of a bound handler throws [null] or [undefined]. *)
Definition throws_no_nullish (h : RpcHandlers) : Prop :=
  (forall spawn d s v,
      spawnSession h = Some spawn -> spawn d s = Throw (ThrowValue v) ->
      is_nullish v = false) /\
  (forall stop s v,
      stopSession h = Some stop -> stop s = Throw (ThrowValue v) ->
      is_nullish v = false).

(** *** Timers and time *)

(** The runtime around the [rpc-request] handler: a clock (milliseconds),
    the handler fields of the client, the [setTimeout] timers still to
    run with the time each is due, the calls made so far with the time of
    each (newest first), and the exceptions that escaped a handler or a
    timer callback. *)
Record Loop : Type := mkLoop {
  clock : Z;
  bound : RpcHandlers;
  pending : list (Z * timer_task);
  history : list (Z * event);
  escaped : list (Z * thrown)
}.

Definition new_loop (start : Z) (h : RpcHandlers) : Loop :=
  mkLoop start h [] [] [].

Definition timeouts_of (now : Z) (es : list event) : list (Z * timer_task) :=
  omap (fun ev => match ev with
                  | SetTimeout task delay => Some (now + delay, task)
                  | _ => None
                  end) es.

(** Enter the outcome of a handler or timer callback run at the current
    time. *)
Definition enter (r : TR unit) (l : Loop) : Loop :=
  mkLoop (clock l) (bound l)
         (pending l ++ timeouts_of (clock l) (fst r))
         (rev (map (pair (clock l)) (fst r)) ++ history l)
         (match snd r with
          | Throw e => (clock l, e) :: escaped l
          | Normal _ => escaped l
          end).

Inductive loop_action : Type :=
| RpcRequest (method : string) (params : jsval)  (* an rpc-request arrives *)
| Elapse (dt : Z)                                (* time passes *)
| FireTimeout (n : nat)                          (* the n-th timer is run *)
| SetHandlers (h : RpcHandlers).                 (* setRPCHandlers(..) *)

(** A timer is run only once it is due; it is then removed. *)
Definition loop_step (m : Machine) (l : Loop) (a : loop_action) : Loop :=
  match a with
  | RpcRequest method params =>
      enter (on_rpc_request m (bound l) method params) l
  | Elapse dt =>
      mkLoop (clock l + Z.max 0 dt) (bound l) (pending l) (history l) (escaped l)
  | FireTimeout n =>
      match pending l !! n with
      | Some (due, task) =>
          if (due <=? clock l)%Z
          then enter (run_task (bound l) task)
                     (mkLoop (clock l) (bound l) (delete n (pending l))
                             (history l) (escaped l))
          else l
      | None => l
      end
  | SetHandlers h =>
      mkLoop (clock l) h (pending l) (history l) (escaped l)
  end.

Definition loop_run (m : Machine) (l : Loop) (actions : list loop_action) : Loop :=
  fold_left (loop_step m) actions l.

(** In a history (newest first) every call of the shutdown handler has an
    acknowledgement of a stop-daemon request below it that was sent at
    least 100 ms earlier. *)
Fixpoint acknowledged_first (hist : list (Z * event)) : Prop :=
  match hist with
  | [] => True
  | (time, ev) :: older =>
      match ev with
      | CallRequestShutdown =>
          exists sent, (sent, Respond stop_daemon_ack) ∈ older /\ sent + 100 <= time
      | _ => True
      end /\ acknowledged_first older
  end.

(** What holds of the runtime between any two steps: the history is as
    above, and every timer still to run is due 100 ms after an
    acknowledgement that is in the history. *)
Definition loop_inv (l : Loop) : Prop :=
  acknowledged_first (history l) /\
  forall due task,
    (due, task) ∈ pending l ->
    (due - 100, Respond stop_daemon_ack) ∈ history l.

(** *** Every way the machine is written *)

Definition mutate (m : Machine) (op : mutation) : Machine :=
  match op with
  | CommitMetadata handler reply =>
      snd (updateMachineMetadata_attempt handler (fun _ => reply) m)
  | CommitDaemonState handler reply =>
      snd (updateDaemonState_attempt handler (fun _ => reply) m)
  | Push body => snd (on_update body m)
  end.

Definition mutations (m : Machine) (ops : list mutation) : Machine :=
  fold_left mutate ops m.

(** The test of the [update] handler. *)
Definition addressed (m : Machine) (body : UpdateBody) : bool :=
  (t body =? "update-machine")%string && (machineId body =? id m)%string.

Definition not_older (local : Z) (u : option Versioned) : bool :=
  match u with
  | Some u => (local <=? version u)%Z
  | None => true
  end.

(** The server hands the client no version below the one it holds: in a
    success reply and in a pushed sub-update that is applied. *)
Definition current (m : Machine) (op : mutation) : bool :=
  match op with
  | CommitMetadata _ (AnsSuccess ver _) => (metadataVersion m <=? ver)%Z
  | CommitDaemonState _ (AnsSuccess ver _) => (daemonStateVersion m <=? ver)%Z
  | Push body =>
      if addressed m body
      then not_older (metadataVersion m) (u_metadata body)
           && not_older (daemonStateVersion m) (u_daemonState body)
      else true
  | _ => true
  end.

Fixpoint all_current (m : Machine) (ops : list mutation) : bool :=
  match ops with
  | [] => true
  | op :: later => current m op && all_current (mutate m op) later
  end.

(** The value and version a write receives for each field. *)
Definition received_metadata (op : mutation) : option Versioned :=
  match op with
  | CommitMetadata _ (AnsSuccess ver payload)
  | CommitMetadata _ (AnsVersionMismatch ver payload) =>
      Some (mkVersioned payload ver)
  | Push body => u_metadata body
  | _ => None
  end.

Definition received_daemonState (op : mutation) : option Versioned :=
  match op with
  | CommitDaemonState _ (AnsSuccess ver payload)
  | CommitDaemonState _ (AnsVersionMismatch ver payload) =>
      Some (mkVersioned payload ver)
  | Push body => u_daemonState body
  | _ => None
  end.

Definition decodable (u : option Versioned) : Prop :=
  match u with
  | Some u => exists v, parse_if_string (value u) = Normal v
  | None => True
  end.

Definition decodes (op : mutation) : Prop :=
  decodable (received_metadata op) /\ decodable (received_daemonState op).

(** A value with its version after a write: the pair held before, or the
    received pair. *)
Definition kept_or_received (before after : jsval * Z) (u : option Versioned)
    : Prop :=
  after = before \/
  exists r, u = Some r /\ parse_if_string (value r) = Normal (fst after)
            /\ snd after = version r.

Definition written_in_pairs (m : Machine) (op : mutation) : Prop :=
  kept_or_received (metadata m, metadataVersion m)
    (metadata (mutate m op), metadataVersion (mutate m op))
    (received_metadata op) /\
  kept_or_received (daemonState m, daemonStateVersion m)
    (daemonState (mutate m op), daemonStateVersion (mutate m op))
    (received_daemonState op).

Fixpoint all_written_in_pairs (m : Machine) (ops : list mutation) : Prop :=
  match ops with
  | [] => True
  | op :: later => written_in_pairs m op /\ all_written_in_pairs (mutate m op) later
  end.

(** ** Properties *)

(** *** Method names *)

Lemma append_cancel (p a b : string) : p +:+ a = p +:+ b -> a = b.
Proof.
  induction p as [|c p IH]; simpl; intros H; [exact H|].
  injection H as H. auto.
Qed.

Lemma method_names_differ (m : Machine) :
  (stopMethod m =? spawnMethod m)%string = false /\
  (stopDaemonMethod m =? spawnMethod m)%string = false /\
  (stopDaemonMethod m =? stopMethod m)%string = false.
Proof.
  unfold spawnMethod, stopMethod, stopDaemonMethod.
  repeat split; apply String.eqb_neq; intros H;
    apply append_cancel in H; discriminate.
Qed.

(** *** The versioned updaters *)

(** An attempt looks at the reply to its own commit only. *)
Lemma metadata_attempt_reply handler reply m :
  updateMachineMetadata_attempt handler reply m =
  updateMachineMetadata_attempt handler
    (fun _ => reply (metadataCommit handler m)) m.
Proof. reflexivity. Qed.

Lemma daemonState_attempt_reply handler reply m :
  updateDaemonState_attempt handler reply m =
  updateDaemonState_attempt handler
    (fun _ => reply (daemonStateCommit handler m)) m.
Proof. reflexivity. Qed.

Ltac run_attempt :=
  unfold updateMachineMetadata_attempt, updateDaemonState_attempt,
    sm_bind, sm_read, sm_assign, sm_lift, sm_throw, sm_ret; simpl.

Lemma metadata_mismatch_newer handler m ver payload v :
  metadataVersion m < ver ->
  parse_if_string payload = Normal v ->
  updateMachineMetadata_attempt handler
    (fun _ => AnsVersionMismatch ver payload) m =
  (Throw (new_Error "Metadata version mismatch"),
   set_metadata v (set_metadataVersion ver m)).
Proof.
  intros Hlt Hp. run_attempt.
  destruct (Z.gtb_spec ver (metadataVersion m)); [|lia].
  simpl. rewrite Hp. reflexivity.
Qed.

Lemma metadata_mismatch_not_newer handler m ver payload :
  ver <= metadataVersion m ->
  updateMachineMetadata_attempt handler
    (fun _ => AnsVersionMismatch ver payload) m =
  (Throw (new_Error "Metadata version mismatch"), m).
Proof.
  intros Hle. run_attempt.
  destruct (Z.gtb_spec ver (metadataVersion m)); [lia|reflexivity].
Qed.

Lemma daemonState_mismatch_newer handler m ver payload v :
  daemonStateVersion m < ver ->
  parse_if_string payload = Normal v ->
  updateDaemonState_attempt handler
    (fun _ => AnsVersionMismatch ver payload) m =
  (Throw (new_Error "Daemon state version mismatch"),
   set_daemonState v (set_daemonStateVersion ver m)).
Proof.
  intros Hlt Hp. run_attempt.
  destruct (Z.gtb_spec ver (daemonStateVersion m)); [|lia].
  simpl. rewrite Hp. reflexivity.
Qed.

Lemma daemonState_mismatch_not_newer handler m ver payload :
  ver <= daemonStateVersion m ->
  updateDaemonState_attempt handler
    (fun _ => AnsVersionMismatch ver payload) m =
  (Throw (new_Error "Daemon state version mismatch"), m).
Proof.
  intros Hle. run_attempt.
  destruct (Z.gtb_spec ver (daemonStateVersion m)); [lia|reflexivity].
Qed.

(** A version mismatch makes the attempt throw whatever it carries. *)
Lemma mismatch_always_throws handler m ver payload :
  (exists e, fst (updateMachineMetadata_attempt handler
                    (fun _ => AnsVersionMismatch ver payload) m) = Throw e) /\
  (exists e, fst (updateDaemonState_attempt handler
                    (fun _ => AnsVersionMismatch ver payload) m) = Throw e).
Proof.
  split; run_attempt.
  - destruct (ver >? metadataVersion m)%Z; simpl; [|eauto].
    destruct (parse_if_string payload); simpl; eauto.
  - destruct (ver >? daemonStateVersion m)%Z; simpl; [|eauto].
    destruct (parse_if_string payload); simpl; eauto.
Qed.

(** Re-baselining for a reported value that decodes. When the
    acknowledgement of a commit is a version mismatch, the attempt of
    [updateMachineMetadata] (and of [updateDaemonState]) always throws,
    which makes [backoff] retry. If the reported version is strictly
    greater than the local one and the reported value decodes, the local
    value and version are the server's pair when the attempt throws, and
    the next attempt commits the transform of the server's value against
    the server's version. If the reported version is not greater, the
    machine is left as it was. Nothing is said here of a reported value
    that does not decode. *)
Theorem version_mismatch_rebases handler m ver payload next later :
  let reply := fun _ : commit => AnsVersionMismatch ver payload in
  let meta := updateMachineMetadata_attempt handler reply m in
  let state := updateDaemonState_attempt handler reply m in
  ((exists e, fst meta = Throw e) /\
   (ver <= metadataVersion m -> snd meta = m) /\
   (metadataVersion m < ver ->
    forall v, parse_if_string payload = Normal v ->
      snd meta = set_metadata v (set_metadataVersion ver m) /\
      (exists more,
         map (metadataCommit handler)
             (attempts (updateMachineMetadata_attempt handler)
                       (reply :: next :: later) m) =
         metadataCommit handler m
         :: mkCommit "machine-update-metadata" (id m)
                     (JSON_stringify (handler v)) ver
         :: more) /\
      updateMachineMetadata handler (reply :: next :: later) m =
      updateMachineMetadata handler (next :: later)
        (set_metadata v (set_metadataVersion ver m)))) /\
  ((exists e, fst state = Throw e) /\
   (ver <= daemonStateVersion m -> snd state = m) /\
   (daemonStateVersion m < ver ->
    forall v, parse_if_string payload = Normal v ->
      snd state = set_daemonState v (set_daemonStateVersion ver m) /\
      (exists more,
         map (daemonStateCommit handler)
             (attempts (updateDaemonState_attempt handler)
                       (reply :: next :: later) m) =
         daemonStateCommit handler m
         :: mkCommit "machine-update-state" (id m)
                     (JSON_stringify (handler v)) ver
         :: more) /\
      updateDaemonState handler (reply :: next :: later) m =
      updateDaemonState handler (next :: later)
        (set_daemonState v (set_daemonStateVersion ver m)))).
Proof.
  intros reply meta state. subst meta state reply.
  destruct (mismatch_always_throws handler m ver payload) as [Hm Hd].
  split; (split; [assumption|]); split.
  - intros Hle. by rewrite metadata_mismatch_not_newer.
  - intros Hlt v Hp.
    unfold updateMachineMetadata. simpl.
    rewrite (metadata_mismatch_newer _ _ _ _ v Hlt Hp). simpl.
    repeat split; eauto.
  - intros Hle. by rewrite daemonState_mismatch_not_newer.
  - intros Hlt v Hp.
    unfold updateDaemonState. simpl.
    rewrite (daemonState_mismatch_newer _ _ _ _ v Hlt Hp). simpl.
    repeat split; eauto.
Qed.

(** C2, as the code has it. When the acknowledgement of a commit is the
    error outcome, the attempt of [updateMachineMetadata] (and of
    [updateDaemonState]) returns normally and leaves the machine as it
    was: no failure is signalled, so [backoff] does not retry and the
    operation completes at this attempt. *)
Theorem error_ack_completes_unchanged handler m later :
  let reply := fun _ : commit => AnsError in
  updateMachineMetadata_attempt handler reply m = (Normal tt, m) /\
  updateDaemonState_attempt handler reply m = (Normal tt, m) /\
  updateMachineMetadata handler (reply :: later) m = (true, m) /\
  updateDaemonState handler (reply :: later) m = (true, m).
Proof. repeat split. Qed.

(** *** The [update] handler *)

Ltac run_sm :=
  unfold on_update, updateMachineMetadata_attempt, updateDaemonState_attempt,
    sm_bind, sm_read, sm_assign, sm_lift, sm_throw, sm_ret; simpl.

Lemma addressed_true m body :
  addressed m body = true <-> machineId body = id m /\ t body = "update-machine".
Proof.
  unfold addressed. rewrite andb_true_iff, !String.eqb_eq. tauto.
Qed.

Lemma addressed_false m body :
  addressed m body = false <-> machineId body <> id m \/ t body <> "update-machine".
Proof.
  unfold addressed. rewrite andb_false_iff, !String.eqb_neq. tauto.
Qed.

Lemma on_update_not_addressed m body :
  addressed m body = false -> on_update body m = (Normal tt, m).
Proof.
  unfold addressed. run_sm. intros ->. reflexivity.
Qed.

(** C8. An update envelope whose [machineId] is not the local machine id,
    or whose type tag is not [update-machine], leaves the machine as it
    was. For any envelope the fields other than the two versioned pairs are
    never written; without a metadata sub-update [metadata] and
    [metadataVersion] are not written, without a daemonState sub-update
    [daemonState] and [daemonStateVersion] are not written, and an envelope
    with neither writes nothing. In a matching envelope a metadata
    sub-update whose value decodes overwrites [metadata] and
    [metadataVersion] with the pushed pair, and a daemonState sub-update
    whose value decodes overwrites [daemonState] and [daemonStateVersion]
    with the pushed pair (the handler reaches it once the metadata
    sub-update, if there is one, has been decoded). What is written to the
    metadata pair is the same with and without the daemonState sub-update,
    and what is written to the daemonState pair is the same with and without
    a metadata sub-update that decodes. *)
Theorem update_frame body m :
  let m' := snd (on_update body m) in
  let metadata_only :=
    snd (on_update (mkUpdateBody (t body) (machineId body) (u_metadata body) None) m) in
  let daemonState_only :=
    snd (on_update (mkUpdateBody (t body) (machineId body) None (u_daemonState body)) m) in
  (machineId body <> id m \/ t body <> "update-machine" ->
   on_update body m = (Normal tt, m)) /\
  (id m' = id m /\ active m' = active m /\ activeAt m' = activeAt m /\
   createdAt m' = createdAt m /\ updatedAt m' = updatedAt m) /\
  (u_metadata body = None ->
   metadata m' = metadata m /\ metadataVersion m' = metadataVersion m) /\
  (u_daemonState body = None ->
   daemonState m' = daemonState m /\
   daemonStateVersion m' = daemonStateVersion m) /\
  (u_metadata body = None -> u_daemonState body = None ->
   on_update body m = (Normal tt, m)) /\
  (machineId body = id m -> t body = "update-machine" ->
   (forall u v, u_metadata body = Some u ->
                parse_if_string (value u) = Normal v ->
                metadata m' = v /\ metadataVersion m' = version u) /\
   (forall u v, u_daemonState body = Some u ->
                parse_if_string (value u) = Normal v ->
                decodable (u_metadata body) ->
                daemonState m' = v /\ daemonStateVersion m' = version u)) /\
  (metadata m' = metadata metadata_only /\
   metadataVersion m' = metadataVersion metadata_only) /\
  (decodable (u_metadata body) ->
   daemonState m' = daemonState daemonState_only /\
   daemonStateVersion m' = daemonStateVersion daemonState_only).
Proof.
  intros m' metadata_only daemonState_only.
  subst m' metadata_only daemonState_only.
  split; [intros H; by apply on_update_not_addressed, addressed_false|].
  destruct (addressed m body) eqn:Ha.
  2:{ rewrite !on_update_not_addressed by exact Ha. simpl.
      repeat split; try reflexivity; intros;
        assert (addressed m body = true) by (by apply addressed_true);
        congruence. }
  unfold addressed in Ha. run_sm. rewrite Ha.
  destruct (u_metadata body) as [um|], (u_daemonState body) as [ud|]; simpl;
    repeat match goal with
           | |- context [parse_if_string ?x] =>
               destruct (parse_if_string x) eqn:?; simpl
           end;
    repeat split; intros; simplify_eq; simpl in *;
    try reflexivity; try congruence;
    try (by destruct m);
    repeat match goal with
           | H : exists _, _ |- _ => destruct H
           end; congruence.
Qed.

(** *** Versions over every write *)

Lemma current_step m op :
  current m op = true ->
  metadataVersion m <= metadataVersion (mutate m op) /\
  daemonStateVersion m <= daemonStateVersion (mutate m op).
Proof.
  destruct op as [handler [ver p|ver p|]|handler [ver p|ver p|]|body];
    simpl; run_sm; intros Hc.
  - destruct (parse_if_string p); simpl; lia.
  - destruct (Z.gtb_spec ver (metadataVersion m)); simpl; [|lia].
    destruct (parse_if_string p); simpl; lia.
  - lia.
  - destruct (parse_if_string p); simpl; lia.
  - destruct (Z.gtb_spec ver (daemonStateVersion m)); simpl; [|lia].
    destruct (parse_if_string p); simpl; lia.
  - lia.
  - unfold addressed in Hc.
    destruct ((t body =? "update-machine")%string && (machineId body =? id m)%string);
      simpl; [|lia].
    apply andb_true_iff in Hc as [Hm Hd].
    destruct (u_metadata body) as [um|], (u_daemonState body) as [ud|]; simpl in *;
      repeat match goal with
             | |- context [parse_if_string ?x] =>
                 destruct (parse_if_string x) eqn:?; simpl
             end; lia.
Qed.

Lemma versions_grow m ops :
  all_current m ops = true ->
  metadataVersion m <= metadataVersion (mutations m ops) /\
  daemonStateVersion m <= daemonStateVersion (mutations m ops).
Proof.
  unfold mutations. revert m.
  induction ops as [|op later IH]; simpl; intros m Hc; [lia|].
  apply andb_true_iff in Hc as [Hop Hlater].
  pose proof (current_step m op Hop). specialize (IH _ Hlater). lia.
Qed.

Lemma kept m r : kept_or_received m m r.
Proof. by left. Qed.

Lemma received payload ver v before :
  parse_if_string payload = Normal v ->
  kept_or_received before (v, ver) (Some (mkVersioned payload ver)).
Proof. intros Hp. right. eexists. repeat split. exact Hp. Qed.

Lemma received_sub u v before :
  parse_if_string (value u) = Normal v ->
  kept_or_received before (v, version u) (Some u).
Proof. intros Hp. right. eexists. repeat split. exact Hp. Qed.

Lemma pairs_step m op : decodes op -> written_in_pairs m op.
Proof.
  unfold decodes, written_in_pairs.
  destruct op as [handler [ver p|ver p|]|handler [ver p|ver p|]|body];
    simpl; run_sm; intros [Hm Hd].
  - destruct Hm as [v Hv]. rewrite Hv. simpl. split; [by apply received|apply kept].
  - destruct Hm as [v Hv].
    destruct (ver >? metadataVersion m)%Z; simpl; [|split; apply kept].
    rewrite Hv. simpl. split; [by apply received|apply kept].
  - split; apply kept.
  - destruct Hd as [v Hv]. rewrite Hv. simpl. split; [apply kept|by apply received].
  - destruct Hd as [v Hv].
    destruct (ver >? daemonStateVersion m)%Z; simpl; [|split; apply kept].
    rewrite Hv. simpl. split; [apply kept|by apply received].
  - split; apply kept.
  - destruct ((t body =? "update-machine")%string && (machineId body =? id m)%string);
      simpl; [|split; apply kept].
    destruct (u_metadata body) as [um|], (u_daemonState body) as [ud|];
      cbn [decodable] in *;
      repeat match goal with
             | H : exists _, _ |- _ =>
                 let E := fresh "E" in destruct H as [? E]; rewrite E
             end;
      simpl; split; first [apply kept | by apply received_sub].
Qed.

Lemma pairs_run m ops : Forall decodes ops -> all_written_in_pairs m ops.
Proof.
  intros H. revert m.
  induction H as [|op later Hop _ IH]; simpl; intros m; [exact I|].
  split; [by apply pairs_step|apply IH].
Qed.

(** C4, as the code has it. Over any sequence of writes to the machine
    (attempts of the two updaters with the reply each received, and update
    events), [metadataVersion] and [daemonStateVersion] do not decrease
    provided no success reply and no applied sub-update carries a version
    below the one held at that moment; the version-mismatch path never
    needs that proviso because it only adopts a strictly greater version.
    And when the values received decode, every write leaves each value
    with the version it was received with: the pair is the one held
    before or the one received. *)
Theorem versions_grow_and_pairs_hold m ops :
  (all_current m ops = true ->
   metadataVersion m <= metadataVersion (mutations m ops) /\
   daemonStateVersion m <= daemonStateVersion (mutations m ops)) /\
  (Forall decodes ops -> all_written_in_pairs m ops).
Proof. split; [apply versions_grow|apply pairs_run]. Qed.

(** *** The [rpc-request] handler *)

Lemma catch_Error msg :
  msg <> "" ->
  rpc_request_catch (new_Error msg) = ([Respond (error_response msg)], Normal tt).
Proof.
  intros Hmsg. unfold rpc_request_catch, error_response. simpl.
  apply String.eqb_neq in Hmsg. by rewrite Hmsg.
Qed.

Lemma catch_answers e :
  match e with ThrowValue v => is_nullish v = false | _ => True end ->
  exists r, rpc_request_catch e = ([Respond r], Normal tt).
Proof.
  unfold rpc_request_catch. destruct e as [name msg|v]; simpl.
  - eauto.
  - intros ->. simpl. eauto.
Qed.

Lemma catch_nullish v :
  is_nullish v = true ->
  exists e, rpc_request_catch (ThrowValue v) = ([], Throw e).
Proof.
  unfold rpc_request_catch. simpl. intros ->. simpl. eauto.
Qed.

(** Case analysis on an innermost scrutinee of the goal. *)
Ltac split_match :=
  match goal with
  | |- context [match ?x with _ => _ end] =>
      lazymatch x with
      | context [match _ with _ => _ end] => fail
      | _ => destruct x eqn:?; simpl
      end
  end.

Ltac dispatch_leaf :=
  first [ constructor
        | eapply spawn_escaped; eassumption
        | eapply stop_escaped; eassumption ].

Lemma on_rpc_request_cases m h method params :
  dispatched h (on_rpc_request m h method params).
Proof.
  unfold on_rpc_request, rpc_request_try, rpc_request_catch, try_catch,
    tr_bind, tr_lift, tr_call, tr_do, tr_throw, tr_ret, thrown_message,
    parse_if_string, parseJSON.
  generalize (spawnMethod m) (stopMethod m) (stopDaemonMethod m).
  intros sp st sd.
  repeat split_match; simplify_eq; try dispatch_leaf.
Qed.

(** With handlers that throw neither [null] nor [undefined], every
    request is answered exactly once and nothing escapes. *)
Lemma answers_exactly_once m h method params :
  throws_no_nullish h ->
  exists r, responses (fst (on_rpc_request m h method params)) = [r] /\
            snd (on_rpc_request m h method params) = Normal tt.
Proof.
  intros [Hspawn Hstop].
  destruct (on_rpc_request_cases m h method params)
    as [r|d s r|s r| |spawn d s v e Hb Ht Hn|stop s v e Hb Ht Hn];
    simpl; eauto.
  - by rewrite (Hspawn _ _ _ _ Hb Ht) in Hn.
  - by rewrite (Hstop _ _ _ Hb Ht) in Hn.
Qed.


Lemma request_for_spawn m h params :
  on_rpc_request m h (spawnMethod m) params =
  try_catch
    (match spawnSession h with
     | None => tr_throw (new_Error "Spawn session handler not set")
     | Some _ => rpc_request_try m h (spawnMethod m) params
     end) rpc_request_catch.
Proof.
  unfold on_rpc_request, rpc_request_try.
  rewrite String.eqb_refl. by destruct (spawnSession h).
Qed.

Lemma spawn_unbound m h params :
  spawnSession h = None ->
  on_rpc_request m h (spawnMethod m) params =
  ([Respond (error_response "Spawn session handler not set")], Normal tt).
Proof. intros Hs. rewrite request_for_spawn, Hs. reflexivity. Qed.

Lemma stop_unbound_decoded m h params paramObj :
  stopSession h = None ->
  parse_if_string params = Normal paramObj ->
  on_rpc_request m h (stopMethod m) params =
  ([Respond (error_response "Stop session handler not set")], Normal tt).
Proof.
  intros Hs Hp. unfold on_rpc_request, rpc_request_try.
  destruct (method_names_differ m) as (-> & _ & _).
  rewrite String.eqb_refl, Hp, Hs. reflexivity.
Qed.

(** The stop-session branch decodes the params before it looks at the
    handler field, so params that do not decode are what it reports. *)
Lemma stop_unbound_undecoded m h s msg :
  JSON_parse s = inr msg ->
  msg <> "" ->
  on_rpc_request m h (stopMethod m) (JStr s) =
  ([Respond (error_response msg)], Normal tt).
Proof.
  intros Hp Hmsg. unfold on_rpc_request, rpc_request_try.
  destruct (method_names_differ m) as (-> & _ & _).
  rewrite String.eqb_refl. simpl. unfold parseJSON. rewrite Hp. simpl.
  unfold rpc_request_catch, error_response. simpl.
  apply String.eqb_neq in Hmsg. by rewrite Hmsg.
Qed.


Lemma request_for_stop_daemon m h params :
  on_rpc_request m h (stopDaemonMethod m) params =
  ([Respond stop_daemon_ack; SetTimeout ShutdownTask 100], Normal tt).
Proof.
  unfold on_rpc_request, rpc_request_try.
  destruct (method_names_differ m) as (_ & -> & ->).
  rewrite String.eqb_refl. reflexivity.
Qed.

Lemma not_identified_nonempty p : not_identified p <> "".
Proof. discriminate. Qed.



(** *** Timers and time *)

Lemma loop_inv_new start h : loop_inv (new_loop start h).
Proof.
  split; simpl; [exact I|]. intros due task Hin. by apply elem_of_nil in Hin.
Qed.

Lemma loop_inv_request m l method params :
  loop_inv l -> loop_inv (enter (on_rpc_request m (bound l) method params) l).
Proof.
  intros [Hhist Hpend].
  destruct (on_rpc_request_cases m (bound l) method params)
    as [r|d s r|s r| |spawn d s v e Hb Ht Hn|stop s v e Hb Ht Hn];
    (split; [simpl; tauto|]); unfold enter; simpl;
    intros due task Hin;
    rewrite ?app_nil_r in Hin;
    try (apply Hpend in Hin; set_solver).
  apply elem_of_app in Hin as [Hin|Hin].
  - apply Hpend in Hin. set_solver.
  - apply list_elem_of_singleton in Hin. simplify_eq.
    replace (clock l + 100 - 100) with (clock l) by lia. set_solver.
Qed.

Lemma loop_inv_step m l a : loop_inv l -> loop_inv (loop_step m l a).
Proof.
  intros Hinv. destruct a as [method params|dt|n|h]; simpl.
  - by apply loop_inv_request.
  - exact Hinv.
  - destruct (pending l !! n) as [[due task]|] eqn:Hn; [|exact Hinv].
    destruct (Z.leb_spec due (clock l)) as [Hdue|]; [|exact Hinv].
    destruct Hinv as [Hhist Hpend].
    assert ((due - 100, Respond stop_daemon_ack) ∈ history l) as Hack
        by (eapply Hpend, list_elem_of_lookup_2, Hn).
    unfold enter, run_task. destruct task.
    destruct (requestShutdown (bound l)); simpl; rewrite app_nil_r.
    + split.
      * simpl. split; [|exact Hhist]. exists (due - 100). split; [exact Hack|lia].
      * intros due' task' Hin. apply list_elem_of_delete_inv in Hin.
        apply Hpend in Hin. set_solver.
    + split; [exact Hhist|].
      intros due' task' Hin. apply list_elem_of_delete_inv in Hin. by apply Hpend in Hin.
  - exact Hinv.
Qed.

Lemma loop_inv_run m actions l : loop_inv l -> loop_inv (loop_run m l actions).
Proof.
  unfold loop_run. revert l.
  induction actions as [|a later IH]; simpl; intros l Hinv; [exact Hinv|].
  by apply IH, loop_inv_step.
Qed.

(** C6. A request for the stop-daemon method calls the response callback
    with the acknowledgement first and then sets a timer of 100 ms; the
    handler itself never calls the shutdown handler. The shutdown handler
    is called by the timer callback only, and the runtime runs a timer
    only once it is due: in every history of the runtime, whatever
    requests arrive, however time passes and whenever timers are run,
    each call of the shutdown handler comes after an acknowledgement that
    was sent at least 100 ms earlier. Once the 100 ms have passed the
    timer callback calls the bound handler. *)
Theorem stop_daemon_acknowledges_then_shuts_down m h params start actions :
  on_rpc_request m h (stopDaemonMethod m) params =
    ([Respond stop_daemon_ack; SetTimeout ShutdownTask 100], Normal tt) /\
  acknowledged_first (history (loop_run m (new_loop start h) actions)) /\
  (forall dt, dt < 100 ->
     history (loop_run m (new_loop start h)
                [RpcRequest (stopDaemonMethod m) params; Elapse dt; FireTimeout 0]) =
     [(start, SetTimeout ShutdownTask 100); (start, Respond stop_daemon_ack)]) /\
  (forall shutdown, requestShutdown h = Some shutdown ->
     history (loop_run m (new_loop start h)
                [RpcRequest (stopDaemonMethod m) params; Elapse 100; FireTimeout 0]) =
     [(start + 100, CallRequestShutdown);
      (start, SetTimeout ShutdownTask 100); (start, Respond stop_daemon_ack)]).
Proof.
  split; [apply request_for_stop_daemon|].
  split; [apply loop_inv_run, loop_inv_new|].
  split.
  - intros dt Hdt. unfold loop_run, new_loop. simpl.
    rewrite request_for_stop_daemon. simpl.
    destruct (Z.leb_spec (start + 100) (start + Z.max 0 dt)); [lia|reflexivity].
  - intros shutdown Hs. unfold loop_run, new_loop. simpl.
    rewrite request_for_stop_daemon. simpl.
    change (Z.max 0 100) with 100.
    destruct (Z.leb_spec (start + 100) (start + 100)); [|lia].
    unfold enter, run_task. simpl. by rewrite Hs.
Qed.

(** ** More of the [rpc-request] handler *)

(** The calls a request for [method] may make: a handler is called only by
    the branch of its own method, the timer is set only by the stop-daemon
    branch, and the shutdown handler is never called by the request
    handler itself. *)
Definition belongs (m : Machine) (method : string) (ev : event) : Prop :=
  match ev with
  | Respond _ => True
  | CallSpawnSession _ _ => method = spawnMethod m
  | CallStopSession _ => method = stopMethod m
  | SetTimeout task delay =>
      method = stopDaemonMethod m /\ task = ShutdownTask /\ delay = 100
  | CallRequestShutdown => False
  end.






(** X4. A request for the spawn or the stop-session method whose params
    are a string that [JSON.parse] rejects is answered with one error
    object and no handler is called, bound or not. *)
Theorem undecodable_params_reach_no_handler m h method params e :
  parse_if_string params = Throw e ->
  method = spawnMethod m \/ method = stopMethod m ->
  exists r, is_error_reply r /\
            on_rpc_request m h method params = ([Respond r], Normal tt).
Proof.
  intros Hp Hmethod.
  assert (exists msg, e = ThrowError "SyntaxError" msg) as [msg ->].
  { unfold parse_if_string, parseJSON in Hp.
    destruct params; try discriminate.
    destruct (JSON_parse s); [discriminate|]. injection Hp as <-. eauto. }
  unfold on_rpc_request, rpc_request_try, is_error_reply.
  destruct Hmethod as [-> | ->].
  - rewrite String.eqb_refl, Hp.
    destruct (spawnSession h); simpl; eauto.
  - destruct (method_names_differ m) as (-> & _ & _).
    rewrite String.eqb_refl, Hp. simpl. eauto.
Qed.

Lemma request_calls_belong m h method params :
  Forall (belongs m method) (fst (on_rpc_request m h method params)).
Proof.
  unfold on_rpc_request, rpc_request_try, rpc_request_catch, try_catch,
    tr_bind, tr_lift, tr_call, tr_do, tr_throw, tr_ret, thrown_message,
    parse_if_string, parseJSON.
  destruct (String.eqb_spec method (spawnMethod m)) as [Hsp|_];
    [|destruct (String.eqb_spec method (stopMethod m)) as [Hst|_];
      [|destruct (String.eqb_spec method (stopDaemonMethod m)) as [Hsd|_]]];
    repeat split_match; simpl; repeat constructor; assumption.
Qed.

(** X5. Whatever the request, the handler calls [spawnSession] only for the
    spawn method, [stopSession] only for the stop-session method, sets a
    timer (the shutdown one, 100 ms) only for the stop-daemon method, and
    never calls [requestShutdown] itself. *)
Theorem calls_belong_to_the_method m h method params :
  Forall (belongs m method) (fst (on_rpc_request m h method params)).
Proof. apply request_calls_belong. Qed.

(** ** More of the versioned updaters *)

(** X6. When the acknowledgement of a commit is success and the value it
    carries decodes, [updateMachineMetadata] (and [updateDaemonState])
    completes at that attempt with the server's value and version as the
    local pair; it makes no further attempt, whatever the server would
    have replied next. *)
Theorem success_is_adopted handler m ver payload v later :
  parse_if_string payload = Normal v ->
  let reply := fun _ : commit => AnsSuccess ver payload in
  (updateMachineMetadata handler (reply :: later) m =
     (true, set_metadataVersion ver (set_metadata v m)) /\
   attempts (updateMachineMetadata_attempt handler) (reply :: later) m = [m]) /\
  (updateDaemonState handler (reply :: later) m =
     (true, set_daemonStateVersion ver (set_daemonState v m)) /\
   attempts (updateDaemonState_attempt handler) (reply :: later) m = [m]).
Proof.
  intros Hp reply. subst reply.
  unfold updateMachineMetadata, updateDaemonState. simpl. run_sm.
  rewrite Hp. simpl. repeat split.
Qed.

(** X7. When the acknowledgement is success but its value is a string that
    [JSON.parse] rejects, the attempt throws the [SyntaxError] with the
    machine left as it was, value and version alike, and the operation goes
    on with the next attempt from that machine. *)
Theorem undecodable_success_is_retried handler m ver payload e later :
  parse_if_string payload = Throw e ->
  let reply := fun _ : commit => AnsSuccess ver payload in
  (updateMachineMetadata_attempt handler reply m = (Throw e, m) /\
   updateMachineMetadata handler (reply :: later) m =
   updateMachineMetadata handler later m) /\
  (updateDaemonState_attempt handler reply m = (Throw e, m) /\
   updateDaemonState handler (reply :: later) m =
   updateDaemonState handler later m).
Proof.
  intros Hp reply. subst reply.
  unfold updateMachineMetadata, updateDaemonState. simpl. run_sm.
  rewrite Hp. simpl. repeat split.
Qed.

(** The fields an updater has no business with. *)
Definition same_but_metadata (m m' : Machine) : Prop :=
  id m' = id m /\ daemonState m' = daemonState m /\
  daemonStateVersion m' = daemonStateVersion m /\ active m' = active m /\
  activeAt m' = activeAt m /\ createdAt m' = createdAt m /\
  updatedAt m' = updatedAt m.

Definition same_but_daemonState (m m' : Machine) : Prop :=
  id m' = id m /\ metadata m' = metadata m /\
  metadataVersion m' = metadataVersion m /\ active m' = active m /\
  activeAt m' = activeAt m /\ createdAt m' = createdAt m /\
  updatedAt m' = updatedAt m.

Lemma metadata_attempt_frame handler reply m :
  same_but_metadata m (snd (updateMachineMetadata_attempt handler reply m)).
Proof.
  run_sm. unfold same_but_metadata.
  destruct (reply (metadataCommit handler m)) as [ver p|ver p|]; simpl.
  - destruct (parse_if_string p); simpl; repeat split.
  - destruct (ver >? metadataVersion m)%Z; simpl; [|repeat split].
    destruct (parse_if_string p); simpl; repeat split.
  - repeat split.
Qed.

Lemma daemonState_attempt_frame handler reply m :
  same_but_daemonState m (snd (updateDaemonState_attempt handler reply m)).
Proof.
  run_sm. unfold same_but_daemonState.
  destruct (reply (daemonStateCommit handler m)) as [ver p|ver p|]; simpl.
  - destruct (parse_if_string p); simpl; repeat split.
  - destruct (ver >? daemonStateVersion m)%Z; simpl; [|repeat split].
    destruct (parse_if_string p); simpl; repeat split.
  - repeat split.
Qed.

(** X8. Whatever the transform and whatever the server replies, over all
    its attempts [updateMachineMetadata] writes nothing but [metadata] and
    [metadataVersion], and [updateDaemonState] nothing but [daemonState]
    and [daemonStateVersion]. *)
Theorem updaters_keep_to_their_field handler script m :
  same_but_metadata m (snd (updateMachineMetadata handler script m)) /\
  same_but_daemonState m (snd (updateDaemonState handler script m)).
Proof.
  unfold updateMachineMetadata, updateDaemonState. split.
  - revert m. induction script as [|reply later IH]; intros m; simpl.
    + repeat split.
    + pose proof (metadata_attempt_frame handler reply m) as Hstep.
      destruct (updateMachineMetadata_attempt handler reply m) as [[[]|e] m'];
        simpl in *; [exact Hstep|].
      specialize (IH m'). unfold same_but_metadata in *.
      intuition congruence.
  - revert m. induction script as [|reply later IH]; intros m; simpl.
    + repeat split.
    + pose proof (daemonState_attempt_frame handler reply m) as Hstep.
      destruct (updateDaemonState_attempt handler reply m) as [[[]|e] m'];
        simpl in *; [exact Hstep|].
      specialize (IH m'). unfold same_but_daemonState in *.
      intuition congruence.
Qed.

(** A server that refuses every commit: its replies, as version and value. *)
Definition refusals (answers : list (Z * jsval)) : list (commit -> answer) :=
  map (fun a => fun _ : commit => AnsVersionMismatch (fst a) (snd a)) answers.

Lemma metadata_refusal_step handler m ver p :
  exists e m1,
    updateMachineMetadata_attempt handler (fun _ => AnsVersionMismatch ver p) m =
    (Throw e, m1) /\
    metadataVersion m1 = Z.max (metadataVersion m) ver.
Proof.
  run_sm. destruct (Z.gtb_spec ver (metadataVersion m)); simpl.
  - destruct (parse_if_string p); simpl; do 2 eexists; (split; [reflexivity|]);
      simpl; lia.
  - do 2 eexists. split; [reflexivity|]. lia.
Qed.

Lemma daemonState_refusal_step handler m ver p :
  exists e m1,
    updateDaemonState_attempt handler (fun _ => AnsVersionMismatch ver p) m =
    (Throw e, m1) /\
    daemonStateVersion m1 = Z.max (daemonStateVersion m) ver.
Proof.
  run_sm. destruct (Z.gtb_spec ver (daemonStateVersion m)); simpl.
  - destruct (parse_if_string p); simpl; do 2 eexists; (split; [reflexivity|]);
      simpl; lia.
  - do 2 eexists. split; [reflexivity|]. lia.
Qed.

(** X9. If the server answers every attempt with a version mismatch, the
    operation is still retrying after any number of attempts, and the
    local version is then the greatest of the initial version and the
    versions reported so far, whether or not the reported values
    decode. *)
Theorem refused_commits_raise_the_version handler answers m :
  (fst (updateMachineMetadata handler (refusals answers) m) = false /\
   metadataVersion (snd (updateMachineMetadata handler (refusals answers) m)) =
   fold_left Z.max (map fst answers) (metadataVersion m)) /\
  (fst (updateDaemonState handler (refusals answers) m) = false /\
   daemonStateVersion (snd (updateDaemonState handler (refusals answers) m)) =
   fold_left Z.max (map fst answers) (daemonStateVersion m)).
Proof.
  unfold updateMachineMetadata, updateDaemonState. split.
  - revert m. induction answers as [|[ver p] later IH]; intros m; [done|].
    destruct (metadata_refusal_step handler m ver p) as (e & m1 & Hstep & Hver).
    cbn [refusals map backoff fst snd fold_left]. fold (refusals later).
    rewrite Hstep, <- Hver. apply IH.
  - revert m. induction answers as [|[ver p] later IH]; intros m; [done|].
    destruct (daemonState_refusal_step handler m ver p) as (e & m1 & Hstep & Hver).
    cbn [refusals map backoff fst snd fold_left]. fold (refusals later).
    rewrite Hstep, <- Hver. apply IH.
Qed.

Lemma metadata_attempt_grows handler reply m e :
  fst (updateMachineMetadata_attempt handler reply m) = Throw e ->
  metadataVersion m <=
  metadataVersion (snd (updateMachineMetadata_attempt handler reply m)).
Proof.
  run_sm. destruct (reply (metadataCommit handler m)) as [ver p|ver p|]; simpl.
  - destruct (parse_if_string p); simpl; [discriminate|lia].
  - destruct (Z.gtb_spec ver (metadataVersion m)); simpl; [|lia].
    destruct (parse_if_string p); simpl; lia.
  - discriminate.
Qed.

Lemma daemonState_attempt_grows handler reply m e :
  fst (updateDaemonState_attempt handler reply m) = Throw e ->
  daemonStateVersion m <=
  daemonStateVersion (snd (updateDaemonState_attempt handler reply m)).
Proof.
  run_sm. destruct (reply (daemonStateCommit handler m)) as [ver p|ver p|]; simpl.
  - destruct (parse_if_string p); simpl; [discriminate|lia].
  - destruct (Z.gtb_spec ver (daemonStateVersion m)); simpl; [|lia].
    destruct (parse_if_string p); simpl; lia.
  - discriminate.
Qed.

Lemma metadata_attempts_from handler script m m' :
  m' ∈ attempts (updateMachineMetadata_attempt handler) script m ->
  metadataVersion m <= metadataVersion m' /\ id m' = id m.
Proof.
  revert m. induction script as [|reply later IH]; intros m; simpl.
  - intros H. by apply elem_of_nil in H.
  - intros H. apply elem_of_cons in H as [->|H]; [split; [lia|done]|].
    pose proof (metadata_attempt_grows handler reply m) as Hgrow.
    pose proof (metadata_attempt_frame handler reply m) as (Hid & _).
    destruct (updateMachineMetadata_attempt handler reply m) as [[[]|e] m1];
      simpl in *; [by apply elem_of_nil in H|].
    specialize (Hgrow e eq_refl). destruct (IH _ H) as [Hle Hid'].
    split; [lia|congruence].
Qed.

Lemma daemonState_attempts_from handler script m m' :
  m' ∈ attempts (updateDaemonState_attempt handler) script m ->
  daemonStateVersion m <= daemonStateVersion m' /\ id m' = id m.
Proof.
  revert m. induction script as [|reply later IH]; intros m; simpl.
  - intros H. by apply elem_of_nil in H.
  - intros H. apply elem_of_cons in H as [->|H]; [split; [lia|done]|].
    pose proof (daemonState_attempt_grows handler reply m) as Hgrow.
    pose proof (daemonState_attempt_frame handler reply m) as (Hid & _).
    destruct (updateDaemonState_attempt handler reply m) as [[[]|e] m1];
      simpl in *; [by apply elem_of_nil in H|].
    specialize (Hgrow e eq_refl). destruct (IH _ H) as [Hle Hid'].
    split; [lia|congruence].
Qed.

Lemma metadata_attempts_sorted handler script m i j ma mb :
  (i <= j)%nat ->
  attempts (updateMachineMetadata_attempt handler) script m !! i = Some ma ->
  attempts (updateMachineMetadata_attempt handler) script m !! j = Some mb ->
  metadataVersion ma <= metadataVersion mb.
Proof.
  revert m i j. induction script as [|reply later IH]; intros m i j Hij; simpl.
  - intros H. by rewrite lookup_nil in H.
  - destruct i as [|i].
    + intros [= <-] Hb. apply list_elem_of_lookup_2 in Hb.
      change (mb ∈ attempts (updateMachineMetadata_attempt handler) (reply :: later) m) in Hb.
      by apply metadata_attempts_from in Hb as [? _].
    + destruct j as [|j]; [lia|]. simpl.
      destruct (updateMachineMetadata_attempt handler reply m) as [[[]|e] m1].
      * intros H. by rewrite lookup_nil in H.
      * apply IH. lia.
Qed.

Lemma daemonState_attempts_sorted handler script m i j ma mb :
  (i <= j)%nat ->
  attempts (updateDaemonState_attempt handler) script m !! i = Some ma ->
  attempts (updateDaemonState_attempt handler) script m !! j = Some mb ->
  daemonStateVersion ma <= daemonStateVersion mb.
Proof.
  revert m i j. induction script as [|reply later IH]; intros m i j Hij; simpl.
  - intros H. by rewrite lookup_nil in H.
  - destruct i as [|i].
    + intros [= <-] Hb. apply list_elem_of_lookup_2 in Hb.
      change (mb ∈ attempts (updateDaemonState_attempt handler) (reply :: later) m) in Hb.
      by apply daemonState_attempts_from in Hb as [? _].
    + destruct j as [|j]; [lia|]. simpl.
      destruct (updateDaemonState_attempt handler reply m) as [[[]|e] m1].
      * intros H. by rewrite lookup_nil in H.
      * apply IH. lia.
Qed.

(** X10. Within one call of [updateMachineMetadata] (or [updateDaemonState]),
    whatever the server replies, every commit is emitted on the updater's
    own event for the client's machine id, and the expected version never
    goes down from one attempt to a later one: it starts at the local
    version and follows what the version mismatches report. *)
Theorem commits_of_one_call handler script m i j ma mb :
  (i <= j)%nat ->
  (attempts (updateMachineMetadata_attempt handler) script m !! i = Some ma ->
   attempts (updateMachineMetadata_attempt handler) script m !! j = Some mb ->
   c_event (metadataCommit handler mb) = "machine-update-metadata" /\
   c_machineId (metadataCommit handler mb) = id m /\
   metadataVersion m <= c_expectedVersion (metadataCommit handler ma) /\
   c_expectedVersion (metadataCommit handler ma) <=
   c_expectedVersion (metadataCommit handler mb)) /\
  (attempts (updateDaemonState_attempt handler) script m !! i = Some ma ->
   attempts (updateDaemonState_attempt handler) script m !! j = Some mb ->
   c_event (daemonStateCommit handler mb) = "machine-update-state" /\
   c_machineId (daemonStateCommit handler mb) = id m /\
   daemonStateVersion m <= c_expectedVersion (daemonStateCommit handler ma) /\
   c_expectedVersion (daemonStateCommit handler ma) <=
   c_expectedVersion (daemonStateCommit handler mb)).
Proof.
  intros Hij. split; intros Ha Hb; simpl.
  - pose proof (metadata_attempts_sorted _ _ _ _ _ _ _ Hij Ha Hb).
    apply list_elem_of_lookup_2, metadata_attempts_from in Ha as [? _].
    apply list_elem_of_lookup_2, metadata_attempts_from in Hb as [_ ?].
    repeat split; assumption.
  - pose proof (daemonState_attempts_sorted _ _ _ _ _ _ _ Hij Ha Hb).
    apply list_elem_of_lookup_2, daemonState_attempts_from in Ha as [? _].
    apply list_elem_of_lookup_2, daemonState_attempts_from in Hb as [_ ?].
    repeat split; assumption.
Qed.

(** ** More of the [update] handler *)

(** X11. The [update] handler has no [try]: in an envelope for this machine,
    a metadata value that [JSON.parse] rejects makes the handler throw with
    nothing written, also when a daemonState sub-update is there; a
    daemonState value that [JSON.parse] rejects makes it throw after the
    metadata sub-update, if any, has been written. *)
Theorem undecodable_push_stops_the_handler body m e :
  addressed m body = true ->
  (forall um, u_metadata body = Some um ->
     parse_if_string (value um) = Throw e ->
     on_update body m = (Throw e, m)) /\
  (forall ud, u_daemonState body = Some ud ->
     parse_if_string (value ud) = Throw e ->
     (u_metadata body = None -> on_update body m = (Throw e, m)) /\
     (forall um v, u_metadata body = Some um ->
        parse_if_string (value um) = Normal v ->
        on_update body m =
        (Throw e, set_metadataVersion (version um) (set_metadata v m)))).
Proof.
  unfold addressed. intros Ha. run_sm. rewrite Ha. split.
  - intros um -> Hp. rewrite Hp. reflexivity.
  - intros ud -> Hp. split.
    + intros ->. simpl. rewrite Hp. reflexivity.
    + intros um v -> Hv. rewrite Hv. simpl. rewrite Hp. reflexivity.
Qed.

Lemma on_update_keeps_rest body m :
  id (snd (on_update body m)) = id m /\
  active (snd (on_update body m)) = active m /\
  activeAt (snd (on_update body m)) = activeAt m /\
  createdAt (snd (on_update body m)) = createdAt m /\
  updatedAt (snd (on_update body m)) = updatedAt m.
Proof.
  run_sm.
  destruct ((t body =? "update-machine")%string && (machineId body =? id m)%string);
    simpl; [|repeat split].
  destruct (u_metadata body) as [um|], (u_daemonState body) as [ud|]; simpl;
    repeat match goal with
           | |- context [parse_if_string ?x] =>
               destruct (parse_if_string x) eqn:?; simpl
           end; repeat split.
Qed.

(** X12. Receiving the same envelope twice is the same as receiving it
    once: the handler ends the same way and leaves the same machine. *)
Theorem update_is_idempotent body m :
  on_update body (snd (on_update body m)) = on_update body m.
Proof.
  run_sm.
  destruct ((t body =? "update-machine")%string && (machineId body =? id m)%string)
    eqn:Ha; simpl; [|by rewrite Ha].
  destruct (u_metadata body) as [um|], (u_daemonState body) as [ud|]; simpl;
    repeat match goal with
           | |- context [parse_if_string ?x] =>
               destruct (parse_if_string x) eqn:?; simpl
           end;
    rewrite ?Ha; simpl;
    repeat match goal with
           | H : parse_if_string ?x = _ |- context [parse_if_string ?x] =>
               rewrite H; simpl
           end; reflexivity.
Qed.

(** X13. An envelope for this machine that carries both sub-updates, each
    with a value that decodes, decides the whole versioned state: what any
    earlier envelope wrote is overwritten. *)
Theorem full_update_overrides earlier body m um ud vm vd :
  addressed m body = true ->
  u_metadata body = Some um -> parse_if_string (value um) = Normal vm ->
  u_daemonState body = Some ud -> parse_if_string (value ud) = Normal vd ->
  on_update body (snd (on_update earlier m)) = on_update body m /\
  on_update body m =
  (Normal tt,
   set_daemonStateVersion (version ud)
     (set_daemonState vd (set_metadataVersion (version um) (set_metadata vm m)))).
Proof.
  intros Ha Hum Hvm Hud Hvd.
  assert (on_update body m =
          (Normal tt,
           set_daemonStateVersion (version ud)
             (set_daemonState vd
                (set_metadataVersion (version um) (set_metadata vm m))))) as Hnow.
  { unfold addressed in Ha. run_sm. rewrite Ha, Hum, Hud, Hvm. simpl.
    rewrite Hvd. reflexivity. }
  split; [|exact Hnow]. rewrite Hnow.
  pose proof (on_update_keeps_rest earlier m) as Hrest.
  set (m1 := snd (on_update earlier m)) in *.
  assert (addressed m1 body = true) as Ha1.
  { unfold addressed in *. destruct Hrest as (-> & _). exact Ha. }
  unfold addressed in Ha1. run_sm. rewrite Ha1, Hum, Hud, Hvm. simpl.
  rewrite Hvd. simpl. unfold set_daemonStateVersion, set_daemonState,
    set_metadataVersion, set_metadata. simpl.
  destruct Hrest as (-> & -> & -> & -> & ->). reflexivity.
Qed.

(** ** More of the stop-daemon timer *)

Definition is_shutdown_call (entry : Z * event) : option unit :=
  match snd entry with
  | CallRequestShutdown => Some tt
  | _ => None
  end.

(** How often the shutdown handler was called in a history. *)
Definition shutdown_calls (hist : list (Z * event)) : nat :=
  length (omap is_shutdown_call hist).

Definition is_stop_daemon_request (m : Machine) (a : loop_action) : option unit :=
  match a with
  | RpcRequest method _ =>
      if (method =? stopDaemonMethod m)%string then Some tt else None
  | _ => None
  end.

(** How many of the actions are requests for the stop-daemon method. *)
Definition stop_daemon_requests (m : Machine) (actions : list loop_action) : nat :=
  length (omap (is_stop_daemon_request m) actions).

Lemma no_shutdown_call_in_request m method now es :
  Forall (belongs m method) es ->
  omap is_shutdown_call (rev (map (pair now) es)) = [].
Proof.
  intros H. induction H as [|ev es Hev _ IH]; simpl; [reflexivity|].
  rewrite omap_app, IH. simpl. destruct ev; simpl in *; done.
Qed.

Lemma no_timer_for_other_methods m method now es :
  method <> stopDaemonMethod m ->
  Forall (belongs m method) es ->
  timeouts_of now es = [].
Proof.
  intros Hm H. unfold timeouts_of.
  induction H as [|ev es Hev _ IH]; simpl; [reflexivity|].
  destruct ev; simpl in *; try exact IH. by destruct Hev.
Qed.

Lemma shutdown_calls_step m l a :
  (shutdown_calls (history (loop_step m l a)) + length (pending (loop_step m l a))
   <= shutdown_calls (history l) + length (pending l)
      + stop_daemon_requests m [a])%nat.
Proof.
  unfold shutdown_calls, stop_daemon_requests.
  destruct a as [method params|dt|n|h']; simpl; try lia.
  - pose proof (request_calls_belong m (bound l) method params) as Hb.
    rewrite omap_app, !length_app.
    rewrite (no_shutdown_call_in_request m method _ _ Hb). simpl.
    destruct (String.eqb_spec method (stopDaemonMethod m)) as [->|Hne]; simpl.
    + rewrite request_for_stop_daemon. simpl. lia.
    + rewrite (no_timer_for_other_methods m method _ _ Hne Hb). simpl. lia.
  - destruct (pending l !! n) as [[due task]|] eqn:Hn; [|lia].
    destruct (due <=? clock l)%Z; [|lia].
    assert (length (delete n (pending l)) + 1 = length (pending l))%nat as Hlen.
    { pose proof (lookup_lt_Some _ _ _ Hn). rewrite length_delete by eauto. lia. }
    remember (delete n (pending l)) as rest eqn:Hrest. clear Hrest.
    unfold enter, run_task. destruct task.
    destruct (requestShutdown (bound l)); simpl; rewrite ?length_app; simpl;
      change (list_omap _ _ is_shutdown_call (history l))
        with (omap is_shutdown_call (history l)); lia.
Qed.

Lemma shutdown_calls_run m actions l :
  (shutdown_calls (history (loop_run m l actions))
   + length (pending (loop_run m l actions))
   <= shutdown_calls (history l) + length (pending l)
      + stop_daemon_requests m actions)%nat.
Proof.
  unfold loop_run. revert l.
  induction actions as [|a later IH]; intros l; simpl.
  - unfold stop_daemon_requests. simpl. lia.
  - specialize (IH (loop_step m l a)).
    pose proof (shutdown_calls_step m l a) as Hstep.
    assert (stop_daemon_requests m (a :: later) =
            stop_daemon_requests m [a] + stop_daemon_requests m later)%nat as ->.
    { unfold stop_daemon_requests.
      change (a :: later) with ([a] ++ later). by rewrite omap_app, length_app. }
    lia.
Qed.

(** X14. However requests arrive, time passes, timers are run and handlers
    are rebound, the shutdown handler is called at most once for each
    request for the stop-daemon method received so far, counting the
    timers that are still to run; nothing else ever calls it. *)
Theorem shutdown_called_once_per_request m start h actions :
  (shutdown_calls (history (loop_run m (new_loop start h) actions))
   + length (pending (loop_run m (new_loop start h) actions))
   <= stop_daemon_requests m actions)%nat.
Proof.
  pose proof (shutdown_calls_run m actions (new_loop start h)) as H.
  simpl in H. exact H.
Qed.

End MachineClient.

(** ** The keep-alive timer *)

Section KeepAlive.

Variable m : Machine.

Lemma tracked_new : tracked new_connection.
Proof. reflexivity. Qed.

Lemma beating_tracked c : beating c -> tracked c.
Proof. intros (handle & Hk & Hi). unfold tracked. by rewrite Hk. Qed.

Lemma stopKeepAlive_clears c :
  tracked c ->
  keepAliveInterval (stopKeepAlive c) = None /\ intervals (stopKeepAlive c) = ∅.
Proof.
  unfold tracked, stopKeepAlive.
  destruct (keepAliveInterval c) as [handle|] eqn:Hk; simpl; intros Hi.
  - split; [reflexivity|]. rewrite Hi. apply delete_singleton_eq.
  - by rewrite Hk.
Qed.

Lemma startKeepAlive_beats c : tracked c -> beating (startKeepAlive c).
Proof.
  intros Ht. destruct (stopKeepAlive_clears c Ht) as [_ Hi].
  unfold startKeepAlive. eexists. simpl. split; [reflexivity|].
  rewrite Hi. apply insert_empty.
Qed.

Lemma register_all_tracked c : tracked c -> tracked (register_all m c).
Proof. intros Ht. exact Ht. Qed.

Lemma connect_beats c : tracked c -> beating (on_socket_event m Connect c).
Proof. intros Ht. simpl. by apply startKeepAlive_beats, register_all_tracked. Qed.

Lemma lifecycle_step_tracked c l : tracked c -> tracked (lifecycle_step m c l).
Proof.
  intros Ht. destruct l as [[| | | |]|]; simpl.
  - by apply beating_tracked, connect_beats.
  - destruct (stopKeepAlive_clears c Ht) as [Hk Hi]. unfold tracked. by rewrite Hk.
  - exact Ht.
  - exact Ht.
  - exact Ht.
  - destruct (stopKeepAlive_clears c Ht) as [Hk Hi].
    unfold tracked, shutdown. simpl. by rewrite Hk.
Qed.

Lemma run_tracked ls c :
  tracked c -> tracked (fold_left (lifecycle_step m) ls c).
Proof.
  revert c. induction ls as [|l ls IH]; simpl; intros c Ht; [exact Ht|].
  by apply IH, lifecycle_step_tracked.
Qed.

Lemma live_tracked ls : tracked (live m ls).
Proof. apply run_tracked, tracked_new. Qed.

Lemma connects_beat n c :
  beating c -> beating (fold_left (lifecycle_step m) (connects n) c).
Proof.
  revert c. induction n as [|n IH]; simpl; intros c Hb; [exact Hb|].
  by apply IH, connect_beats, beating_tracked.
Qed.

(** C9. After any life of the client that ends with [n] consecutive
    connect events, [n] at least one, exactly one interval timer is
    running: the one the client remembers, with the keep-alive callback
    and a period of 20000 ms; each of its ticks emits [machine-alive] with
    the machine id and the current time. After a disconnect event or a
    call of [shutdown()], no interval timer is running. *)
Theorem heartbeat_lifecycle (before : list lifecycle) (n : nat) (now : Z) :
  (0 < n)%nat ->
  (size (intervals (live m (before ++ connects n))) = 1%nat /\
   beating (live m (before ++ connects n))) /\
  run_interval m now MachineAliveTask =
    ("machine-alive", JObj [("machineId", JStr (id m)); ("time", JNum now)]) /\
  intervals (live m (before ++ [Socket Disconnect])) = ∅ /\
  intervals (live m (before ++ [Shutdown])) = ∅.
Proof.
  intros Hn. unfold live. rewrite !fold_left_app.
  pose proof (live_tracked before) as Ht. unfold live in Ht.
  split; [|split; [reflexivity|]].
  - destruct n as [|n]; [lia|].
    change (connects (S n)) with (Socket Connect :: connects n).
    cbn [fold_left lifecycle_step].
    pose proof (connects_beat n _ (connect_beats _ Ht)) as Hb.
    split; [|exact Hb].
    destruct Hb as (handle & _ & ->). apply map_size_singleton.
  - simpl. split.
    + by destruct (stopKeepAlive_clears _ Ht).
    + by destruct (stopKeepAlive_clears _ Ht).
Qed.

End KeepAlive.

(** ** Registration and the heartbeat over a client's life *)

(** What a connection event announces to the server. *)
Definition announced (m : Machine) (l : lifecycle) : list (string * jsval) :=
  match l with
  | Socket Connect | Socket Reconnect =>
      [("rpc-register", JObj [("method", JStr (spawnMethod m))]);
       ("rpc-register", JObj [("method", JStr (stopMethod m))]);
       ("rpc-register", JObj [("method", JStr (stopDaemonMethod m))])]
  | _ => []
  end.

(** Whether the last of the connect, disconnect and shutdown events so far
    was a connect. *)
Definition heartbeat_on (ls : list lifecycle) : bool :=
  fold_left (fun on l => match l with
                         | Socket Connect => true
                         | Socket Disconnect | Shutdown => false
                         | Socket _ => on
                         end) ls false.

Definition heartbeat_matches (on : bool) (c : Connection) : Prop :=
  if on then beating c
  else keepAliveInterval c = None /\ intervals c = ∅.

Section Lifecycle.

Variable m : Machine.

Lemma outbox_run ls c :
  outbox (fold_left (lifecycle_step m) ls c) = outbox c ++ flat_map (announced m) ls.
Proof.
  revert c. induction ls as [|l ls IH]; intros c; simpl.
  - by rewrite app_nil_r.
  - rewrite IH. rewrite app_assoc. f_equal.
    destruct l as [[| | | |]|]; simpl; rewrite ?app_nil_r; try reflexivity.
    + unfold startKeepAlive, stopKeepAlive.
      destruct (keepAliveInterval (register_all m c)); simpl;
        by rewrite <- !app_assoc.
    + unfold stopKeepAlive. by destruct (keepAliveInterval c).
    + by rewrite <- !app_assoc.
    + unfold shutdown, stopKeepAlive. by destruct (keepAliveInterval c).
Qed.

(** X15. Over any life of the client, what the connection handlers emit is
    exactly one batch of three [rpc-register] announcements for every
    connect and every reconnect event, in the order spawn, stop-session,
    stop-daemon and under the very names the [rpc-request] handler answers
    to; disconnects, errors and [shutdown()] emit nothing, and nothing is
    ever unregistered. *)
Theorem registrations_follow_connections (ls : list lifecycle) :
  outbox (live m ls) = flat_map (announced m) ls.
Proof. unfold live. by rewrite outbox_run. Qed.

Lemma heartbeat_matches_tracked on c : heartbeat_matches on c -> tracked c.
Proof.
  destruct on; simpl.
  - apply beating_tracked.
  - intros [Hk Hi]. unfold tracked. by rewrite Hk.
Qed.

Lemma heartbeat_run ls on c :
  heartbeat_matches on c ->
  heartbeat_matches
    (fold_left (fun on l => match l with
                            | Socket Connect => true
                            | Socket Disconnect | Shutdown => false
                            | Socket _ => on
                            end) ls on)
    (fold_left (lifecycle_step m) ls c).
Proof.
  revert on c. induction ls as [|l ls IH]; intros on c Hc; simpl; [exact Hc|].
  apply IH. pose proof (heartbeat_matches_tracked _ _ Hc) as Ht.
  destruct l as [[| | | |]|]; simpl.
  - by apply connect_beats.
  - by apply stopKeepAlive_clears.
  - exact Hc.
  - exact Hc.
  - exact Hc.
  - by apply stopKeepAlive_clears.
Qed.

(** X16. At every point of any life of the client, the heartbeat timer
    runs exactly when the last of the connect, disconnect and shutdown
    events so far was a connect: then it is the only interval timer;
    otherwise there is none. A reconnect event or an error event neither
    starts nor stops it. *)
Theorem heartbeat_follows_last_event (ls : list lifecycle) :
  heartbeat_matches (heartbeat_on ls) (live m ls).
Proof. apply heartbeat_run. by split. Qed.

End Lifecycle.

(** ** The daemon state declared on connect *)

Fixpoint chars (s : string) : list jsval :=
  match s with
  | EmptyString => []
  | String c rest => JStr (String c EmptyString) :: chars rest
  end.

Definition indexed (items : list jsval) : list (string * jsval) :=
  imap (fun i x => (show_Z (Z.of_nat i), x)) items.

(** The own enumerable properties an object spread [{...v}] copies: the
    fields of an object, the elements of an array or a string under their
    indices, nothing for any other value. *)
Definition own_fields (v : jsval) : list (string * jsval) :=
  match v with
  | JObj fields => fields
  | JArr items => indexed items
  | JStr s => indexed (chars s)
  | _ => []
  end.

(** A property [k: v] written after a spread in an object literal: it
    takes the place of a property of that name, or comes last. *)
Fixpoint obj_set (k : string) (v : jsval) (fields : list (string * jsval))
    : list (string * jsval) :=
  match fields with
  | [] => [(k, v)]
  | (k', v') :: rest =>
      if (k =? k')%string then (k, v) :: rest else (k', v') :: obj_set k v rest
  end.

(** [v?.k] *)
Definition opt_get (v : jsval) (k : string) : jsval :=
  if is_nullish v then JUndefined else js_get v k.

(** The object literal of the transform the [connect] handler passes to
    [updateDaemonState]; [pid] is [process.pid], [now] is [Date.now()],
    [machine_state] is [this.machine.daemonState] and [state] the argument
    of the transform. *)
Definition running_state (pid now : Z) (machine_state state : jsval) : jsval :=
  JObj (obj_set "startedAt" (JNum now)
          (obj_set "httpPort" (opt_get machine_state "httpPort")
             (obj_set "pid" (JNum pid)
                (obj_set "status" (JStr "running") (own_fields state))))).

(** The transform as [updateDaemonState] runs it: it is called with
    [this.machine.daemonState], which is also what it reads the port
    from. *)
Definition declare_running (pid now : Z) (state : jsval) : jsval :=
  running_state pid now state state.

Definition has_key (k : string) (fields : list (string * jsval)) : bool :=
  existsb (fun kv => (k =? fst kv)%string) fields.

Lemma assoc_obj_set_eq k v fields : assoc k (obj_set k v fields) = v.
Proof.
  induction fields as [|[k' v'] rest IH]; simpl.
  - by rewrite String.eqb_refl.
  - destruct (k =? k')%string eqn:E; simpl; [by rewrite String.eqb_refl|].
    by rewrite E.
Qed.

Lemma assoc_obj_set_ne k k' v fields :
  k <> k' -> assoc k' (obj_set k v fields) = assoc k' fields.
Proof.
  intros Hne. induction fields as [|[k1 v1] rest IH]; simpl.
  - apply not_eq_sym, String.eqb_neq in Hne. by rewrite Hne.
  - destruct (String.eqb_spec k k1) as [->|Hk]; simpl.
    + apply not_eq_sym, String.eqb_neq in Hne. by rewrite Hne.
    + by rewrite IH.
Qed.

Lemma has_key_obj_set k k' v fields :
  has_key k' (obj_set k v fields) = (k' =? k)%string || has_key k' fields.
Proof.
  unfold has_key. induction fields as [|[k1 v1] rest IH]; simpl.
  - reflexivity.
  - destruct (String.eqb_spec k k1) as [->|Hk]; simpl.
    + by destruct (k' =? k1)%string.
    + rewrite IH. by destruct (k' =? k)%string, (k' =? k1)%string.
Qed.

Lemma obj_set_twice k v v' fields :
  obj_set k v' (obj_set k v fields) = obj_set k v' fields.
Proof.
  induction fields as [|[k1 v1] rest IH]; simpl.
  - by rewrite String.eqb_refl.
  - destruct (k =? k1)%string eqn:E; simpl.
    + by rewrite String.eqb_refl.
    + by rewrite E, IH.
Qed.

Lemma obj_set_swap k k' v v' fields :
  k <> k' -> has_key k fields = true ->
  obj_set k v (obj_set k' v' fields) = obj_set k' v' (obj_set k v fields).
Proof.
  intros Hne. unfold has_key.
  induction fields as [|[k1 v1] rest IH]; simpl; [discriminate|].
  destruct (String.eqb_spec k k1) as [->|Hk]; simpl.
  - intros _. destruct (String.eqb_spec k' k1) as [->|Hk']; [done|]. simpl.
    by rewrite String.eqb_refl.
  - intros Hin. destruct (String.eqb_spec k' k1) as [->|Hk']; simpl.
    + destruct (String.eqb_spec k k1); [done|reflexivity].
    + destruct (String.eqb_spec k k1); [done|]. by rewrite IH.
Qed.

(** X17. The state the connect handler declares has [status] running, the
    process id, the start time, and the port of the state it was built
    from ([undefined] when that state is [null] or [undefined]); every
    other property of the previous state is carried over with its value,
    and whatever the previous state said about status, pid and start time
    is overridden. *)
Theorem declared_state pid now state k :
  js_get (declare_running pid now state) "status" = JStr "running" /\
  js_get (declare_running pid now state) "pid" = JNum pid /\
  js_get (declare_running pid now state) "startedAt" = JNum now /\
  js_get (declare_running pid now state) "httpPort" = opt_get state "httpPort" /\
  (k <> "status" -> k <> "pid" -> k <> "httpPort" -> k <> "startedAt" ->
   js_get (declare_running pid now state) k = assoc k (own_fields state)).
Proof.
  unfold declare_running, running_state. simpl.
  repeat split.
  - rewrite !assoc_obj_set_ne by discriminate. apply assoc_obj_set_eq.
  - rewrite !assoc_obj_set_ne by discriminate. apply assoc_obj_set_eq.
  - apply assoc_obj_set_eq.
  - rewrite assoc_obj_set_ne by discriminate. apply assoc_obj_set_eq.
  - intros H1 H2 H3 H4. by rewrite !assoc_obj_set_ne by congruence.
Qed.

Lemma declared_state_port pid now state :
  opt_get (declare_running pid now state) "httpPort" = opt_get state "httpPort" /\
  own_fields (declare_running pid now state) =
  obj_set "startedAt" (JNum now)
    (obj_set "httpPort" (opt_get state "httpPort")
       (obj_set "pid" (JNum pid)
          (obj_set "status" (JStr "running") (own_fields state)))).
Proof.
  split; [|reflexivity].
  unfold declare_running, running_state, opt_get at 1. simpl.
  rewrite assoc_obj_set_ne by discriminate. apply assoc_obj_set_eq.
Qed.

(** X18. Declaring the state again on a later connect, on top of what the
    earlier connect declared, gives the very object that declaring it on
    top of the original state gives: the earlier pid and start time leave
    no trace, the port and the other properties stay, and no property is
    added twice. *)
Theorem redeclared_state pid now pid' now' state :
  declare_running pid' now' (declare_running pid now state) =
  declare_running pid' now' state.
Proof.
  unfold declare_running at 1 3. unfold running_state.
  destruct (declared_state_port pid now state) as [-> Hfields]. rewrite Hfields.
  set (f := own_fields state).
  assert (forall k v g, has_key k (obj_set k v g) = true) as Hin.
  { intros k v g. rewrite has_key_obj_set. by rewrite String.eqb_refl. }
  f_equal.
  rewrite (obj_set_swap "status" "startedAt") by
    (try discriminate; rewrite !has_key_obj_set; reflexivity).
  rewrite (obj_set_swap "status" "httpPort") by
    (try discriminate; rewrite !has_key_obj_set; reflexivity).
  rewrite (obj_set_swap "status" "pid") by
    (try discriminate; rewrite !has_key_obj_set; reflexivity).
  rewrite obj_set_twice.
  rewrite (obj_set_swap "pid" "startedAt") by
    (try discriminate; rewrite !has_key_obj_set; reflexivity).
  rewrite (obj_set_swap "pid" "httpPort") by
    (try discriminate; rewrite !has_key_obj_set; reflexivity).
  rewrite obj_set_twice.
  rewrite (obj_set_swap "httpPort" "startedAt") by
    (try discriminate; rewrite !has_key_obj_set; reflexivity).
  rewrite obj_set_twice.
  rewrite obj_set_twice.
  reflexivity.
Qed.

(** ** The web authentication URL ([generateWebAuthUrl]) *)

From Stdlib Require Import Ascii.

(** [\d] *)
Definition is_digit (c : Ascii.ascii) : bool :=
  (48 <=? Ascii.nat_of_ascii c)%nat && (Ascii.nat_of_ascii c <=? 57)%nat.

Fixpoint all_digits (s : string) : bool :=
  match s with
  | EmptyString => true
  | String c rest => is_digit c && all_digits rest
  end.

(** [s.replace(/:\d+$/, ':8082')]: the match, if any, is a colon followed
    by one or more digits that end the string. *)
Fixpoint replace_port (s : string) : string :=
  match s with
  | EmptyString => EmptyString
  | String c rest =>
      if Ascii.eqb c ":"%char && negb (rest =? "")%string && all_digits rest
      then ":8082"
      else String c (replace_port rest)
  end.

(** [s.includes(needle)] *)
Fixpoint includes (needle s : string) : bool :=
  String.prefix needle s ||
  match s with
  | EmptyString => false
  | String _ rest => includes needle rest
  end.

(** [serverUrl] is [configuration.serverUrl]; [publicKeyBase64] is what
    [encodeBase64(publicKey, 'base64url')] returns ([./encryption] is not
    part of the sources). *)
Definition generateWebAuthUrl (serverUrl publicKeyBase64 : string) : string :=
  if includes "localhost" serverUrl || includes "127.0.0.1" serverUrl
  then replace_port serverUrl +:+ "/terminal/connect#key=" +:+ publicKeyBase64
  else "https://app.happy.engineering/terminal/connect#key=" +:+ publicKeyBase64.

Definition is_local (serverUrl : string) : bool :=
  includes "localhost" serverUrl || includes "127.0.0.1" serverUrl.

Lemma append_assoc (a b c : string) : (a +:+ b) +:+ c = a +:+ (b +:+ c).
Proof.
  induction a as [|x a IH]; [reflexivity|].
  change (String x ((a +:+ b) +:+ c) = String x (a +:+ (b +:+ c))).
  by rewrite IH.
Qed.

Lemma replace_port_cons c rest :
  replace_port (String c rest) =
  if Ascii.eqb c ":"%char && negb (rest =? "")%string && all_digits rest
  then ":8082"
  else String c (replace_port rest).
Proof. reflexivity. Qed.

Lemma all_digits_cons c rest :
  all_digits (String c rest) = is_digit c && all_digits rest.
Proof. reflexivity. Qed.

Lemma all_digits_colon a b : all_digits (a +:+ String ":"%char b) = false.
Proof.
  induction a as [|c a IH].
  - reflexivity.
  - change (String c a +:+ String ":"%char b)
      with (String c (a +:+ String ":"%char b)).
    rewrite all_digits_cons, IH. apply andb_false_r.
Qed.

Lemma replace_port_trailing base digits :
  all_digits digits = true -> digits <> "" ->
  replace_port (base +:+ ":" +:+ digits) = base +:+ ":8082".
Proof.
  intros Hd Hne. apply String.eqb_neq in Hne.
  change (":" +:+ digits) with (String ":"%char digits).
  induction base as [|c base IH].
  - change ("" +:+ String ":"%char digits) with (String ":"%char digits).
    rewrite replace_port_cons, Hne, Hd. reflexivity.
  - change (String c base +:+ String ":"%char digits)
      with (String c (base +:+ String ":"%char digits)).
    rewrite replace_port_cons, all_digits_colon, andb_false_r, IH. reflexivity.
Qed.

Lemma all_digits_last s c : is_digit c = false ->
  all_digits (s +:+ String c "") = false.
Proof.
  intros Hc. induction s as [|x s IH].
  - change ("" +:+ String c "") with (String c "").
    by rewrite all_digits_cons, Hc.
  - change (String x s +:+ String c "") with (String x (s +:+ String c "")).
    rewrite all_digits_cons, IH. apply andb_false_r.
Qed.

Lemma replace_port_no_port s c :
  is_digit c = false ->
  replace_port (s +:+ String c "") = s +:+ String c "".
Proof.
  intros Hc. induction s as [|x s IH].
  - change ("" +:+ String c "") with (String c "").
    rewrite replace_port_cons. change ("" =? "")%string with true.
    by rewrite andb_false_r.
  - change (String x s +:+ String c "") with (String x (s +:+ String c "")).
    by rewrite replace_port_cons, all_digits_last, andb_false_r, IH.
Qed.

(** X19. For a local server (its URL contains [localhost] or [127.0.0.1])
    whose URL ends in a port, a colon and one or more digits, the web
    authentication URL is the server URL with that port replaced by 8082,
    followed by the connect path and the key; colons earlier in the URL
    are left alone. *)
Theorem local_port_becomes_8082 base digits key :
  all_digits digits = true -> digits <> "" ->
  is_local (base +:+ ":" +:+ digits) = true ->
  generateWebAuthUrl (base +:+ ":" +:+ digits) key =
  base +:+ ":8082/terminal/connect#key=" +:+ key.
Proof.
  intros Hd Hne Hlocal. unfold generateWebAuthUrl. fold (is_local (base +:+ ":" +:+ digits)).
  rewrite Hlocal, replace_port_trailing by assumption.
  by rewrite append_assoc.
Qed.

(** X20. For a local server whose URL does not end in a digit (no port, or
    a trailing slash after the port), nothing is replaced: the web
    authentication URL is the server URL as it is, port included, followed
    by the connect path and the key. For a server that is not local the
    URL is the one of the hosted application, whatever the server URL. *)
Theorem url_without_final_port s c key :
  is_digit c = false ->
  generateWebAuthUrl (s +:+ String c "") key =
  if is_local (s +:+ String c "")
  then (s +:+ String c "") +:+ "/terminal/connect#key=" +:+ key
  else "https://app.happy.engineering/terminal/connect#key=" +:+ key.
Proof.
  intros Hc. unfold generateWebAuthUrl. fold (is_local (s +:+ String c "")).
  by rewrite replace_port_no_port.
Qed.

(** ** The HTTP client ([src/api/api.ts]) *)

(** What [axios] resolves with. *)
Record HttpResponse : Type := mkHttpResponse {
  status : Z;
  statusText : string;
  data : jsval
}.

(** How a call can end: it returns, it throws, or the process exits. *)
Inductive ended (A : Type) : Type :=
| Returned (a : A)
| Thrown (e : thrown)
| Exited (code : Z).
Arguments Returned {A} a.
Arguments Thrown {A} e.
Arguments Exited {A} code.

Definition c_bind {A B} (c : completion A) (k : A -> completion B) : completion B :=
  match c with
  | Normal a => k a
  | Throw e => Throw e
  end.

Declare Scope completion_scope.
Delimit Scope completion_scope with completion.
Notation "x <- c ;; k" := (c_bind c (fun x => k))
  (at level 100, c at next level, right associativity) : completion_scope.

(** The property read [v.k], which throws on [null] and [undefined]. *)
Definition js_prop (v : jsval) (k : string) : completion jsval :=
  if is_nullish v
  then Throw (ThrowError "TypeError"
                ("Cannot read properties of " +:+ js_String v
                 +:+ " (reading '" +:+ k +:+ "')"))
  else Normal (js_get v k).

(** [a || b] *)
Definition js_or (a b : jsval) : jsval := if truthy a then a else b.

(** The arguments of [createMachineOrGetExistingAsIs] and of
    [getOrCreateSession]; an absent [daemonState] is [JUndefined]. *)
Record MachineOpts : Type := mkMachineOpts {
  o_machineId : string;
  o_metadata : jsval;
  o_daemonState : jsval
}.

Record SessionOpts : Type := mkSessionOpts {
  o_tag : string;
  o_session_metadata : jsval;
  o_state : jsval
}.

Section ApiClient.

Variable JSON_parse : string -> jsval + string.
Variable JSON_stringify : jsval -> string.

(** [x ? (typeof x === 'string' ? JSON.parse(x) : x) : null] *)
Definition parse_or_null (x : jsval) : completion jsval :=
  if truthy x then parse_if_string JSON_parse x else Normal JNull.

(** The object literal [getMachine] and [createMachineOrGetExistingAsIs]
    build from [raw], property by property. *)
Definition machine_of (raw : jsval) : completion jsval :=
  (rid <- js_prop raw "id" ;;
   md <- js_prop raw "metadata" ;;
   parsed_metadata <- parse_or_null md ;;
   mv <- js_prop raw "metadataVersion" ;;
   ds <- js_prop raw "daemonState" ;;
   parsed_daemonState <- parse_or_null ds ;;
   dv <- js_prop raw "daemonStateVersion" ;;
   ractive <- js_prop raw "active" ;;
   ractiveAt <- js_prop raw "activeAt" ;;
   rcreatedAt <- js_prop raw "createdAt" ;;
   rupdatedAt <- js_prop raw "updatedAt" ;;
   Normal (JObj [("id", rid);
                 ("metadata", parsed_metadata);
                 ("metadataVersion", js_or mv (JNum 0));
                 ("daemonState", parsed_daemonState);
                 ("daemonStateVersion", js_or dv (JNum 0));
                 ("active", ractive);
                 ("activeAt", ractiveAt);
                 ("createdAt", rcreatedAt);
                 ("updatedAt", rupdatedAt)]))%completion.

(** [getMachine]; [response] is how the [axios.get] call ended. *)
Definition getMachine (response : completion HttpResponse) : completion jsval :=
  (resp <- response ;;
   raw <- js_prop (data resp) "machine" ;;
   if negb (truthy raw) then Normal JNull else machine_of raw)%completion.

(** The body [createMachineOrGetExistingAsIs] posts. *)
Definition machine_request (opts : MachineOpts) : jsval :=
  JObj [("id", JStr (o_machineId opts));
        ("metadata", JStr (JSON_stringify (o_metadata opts)));
        ("daemonState",
         if truthy (o_daemonState opts)
         then JStr (JSON_stringify (o_daemonState opts))
         else JUndefined)].

(** [createMachineOrGetExistingAsIs]; [post] is how [axios.post] ends for
    a given body. A status other than 200 ends in [process.exit(1)]. *)
Definition createMachineOrGetExistingAsIs (opts : MachineOpts)
    (post : jsval -> completion HttpResponse) : ended jsval :=
  match post (machine_request opts) with
  | Throw e => Thrown e
  | Normal resp =>
      if negb (status resp =? 200)%Z then Exited 1
      else match (raw <- js_prop (data resp) "machine" ;; machine_of raw)%completion with
           | Normal machine => Returned machine
           | Throw e => Thrown e
           end
  end.

(** The body [getOrCreateSession] posts. *)
Definition session_request (opts : SessionOpts) : jsval :=
  JObj [("tag", JStr (o_tag opts));
        ("metadata", JStr (JSON_stringify (o_session_metadata opts)));
        ("agentState",
         if truthy (o_state opts)
         then JStr (JSON_stringify (o_state opts))
         else JNull)].

(** The [try] block of [getOrCreateSession]; the debug line reads
    [response.data.session.id] before the session is built. *)
Definition session_try (opts : SessionOpts)
    (post : jsval -> completion HttpResponse) : completion jsval :=
  (resp <- post (session_request opts) ;;
   logged <- js_prop (data resp) "session" ;;
   _ <- js_prop logged "id" ;;
   raw <- js_prop (data resp) "session" ;;
   rid <- js_prop raw "id" ;;
   rcreatedAt <- js_prop raw "createdAt" ;;
   rupdatedAt <- js_prop raw "updatedAt" ;;
   rseq <- js_prop raw "seq" ;;
   md <- js_prop raw "metadata" ;;
   parsed_metadata <- parse_if_string JSON_parse md ;;
   mv <- js_prop raw "metadataVersion" ;;
   ast <- js_prop raw "agentState" ;;
   parsed_agentState <- parse_or_null ast ;;
   asv <- js_prop raw "agentStateVersion" ;;
   Normal (JObj [("id", rid);
                 ("createdAt", rcreatedAt);
                 ("updatedAt", rupdatedAt);
                 ("seq", rseq);
                 ("metadata", parsed_metadata);
                 ("metadataVersion", mv);
                 ("agentState", parsed_agentState);
                 ("agentStateVersion", asv)]))%completion.

(** [error instanceof Error ? error.message : 'Unknown error'] *)
Definition error_detail (e : thrown) : string :=
  match e with
  | ThrowError _ msg => msg
  | ThrowValue _ => "Unknown error"
  end.

Definition getOrCreateSession (opts : SessionOpts)
    (post : jsval -> completion HttpResponse) : completion jsval :=
  match session_try opts post with
  | Normal session => Normal session
  | Throw e =>
      Throw (new_Error ("Failed to get or create session: " +:+ error_detail e))
  end.

(** A server that stores what it is sent and hands it back: the machine
    record it answers with carries the posted [id], [metadata] and
    [daemonState] and the versions and times [rest] it keeps. *)
Definition stored_machine (body : jsval) (rest : list (string * jsval)) : jsval :=
  JObj (("id", js_get body "id")
        :: ("metadata", js_get body "metadata")
        :: ("daemonState", js_get body "daemonState")
        :: rest).

Definition storing_server (rest : list (string * jsval)) (body : jsval)
    : completion HttpResponse :=
  Normal (mkHttpResponse 200 "OK" (JObj [("machine", stored_machine body rest)])).


(** A value as the server may send it: absent, already decoded, or a
    string that [JSON.parse] accepts. *)
Definition decodes_or_absent (x : jsval) : Prop :=
  truthy x = false \/ exists v, parse_if_string JSON_parse x = Normal v.

Lemma js_prop_defined v k : is_nullish v = false -> js_prop v k = Normal (js_get v k).
Proof. unfold js_prop. by intros ->. Qed.

Lemma truthy_not_nullish v : truthy v = true -> is_nullish v = false.
Proof. by destruct v. Qed.

Lemma parse_or_null_ok x :
  decodes_or_absent x -> exists v, parse_or_null x = Normal v.
Proof.
  unfold parse_or_null. intros [-> | [v Hv]]; [eauto|].
  destruct (truthy x); eauto.
Qed.

Lemma machine_of_defined raw :
  is_nullish raw = false ->
  machine_of raw =
  (parsed_metadata <- parse_or_null (js_get raw "metadata") ;;
   parsed_daemonState <- parse_or_null (js_get raw "daemonState") ;;
   Normal (JObj [("id", js_get raw "id");
                 ("metadata", parsed_metadata);
                 ("metadataVersion", js_or (js_get raw "metadataVersion") (JNum 0));
                 ("daemonState", parsed_daemonState);
                 ("daemonStateVersion",
                  js_or (js_get raw "daemonStateVersion") (JNum 0));
                 ("active", js_get raw "active");
                 ("activeAt", js_get raw "activeAt");
                 ("createdAt", js_get raw "createdAt");
                 ("updatedAt", js_get raw "updatedAt")]))%completion.
Proof.
  intros Hraw. unfold machine_of. rewrite !js_prop_defined by exact Hraw. simpl.
  destruct (parse_or_null (js_get raw "metadata")); simpl; [|reflexivity].
  destruct (parse_or_null (js_get raw "daemonState")); reflexivity.
Qed.

(** X21. [getMachine], for a response with a body: it returns [null]
    exactly when the body has no machine; otherwise, provided the
    record's [metadata] and [daemonState] are each absent (or empty) or
    decode, it returns a machine whose [metadata] and [daemonState] are
    [null] when absent and whose two versions are the record's, or 0 when
    the record has none; it then never throws. *)
Theorem getMachine_defaults resp :
  is_nullish (data resp) = false ->
  let raw := js_get (data resp) "machine" in
  (truthy raw = false -> getMachine (Normal resp) = Normal JNull) /\
  (truthy raw = true ->
   decodes_or_absent (js_get raw "metadata") ->
   decodes_or_absent (js_get raw "daemonState") ->
   exists machine,
     getMachine (Normal resp) = Normal machine /\ machine <> JNull /\
     js_get machine "id" = js_get raw "id" /\
     js_get machine "metadataVersion" = js_or (js_get raw "metadataVersion") (JNum 0) /\
     js_get machine "daemonStateVersion" =
       js_or (js_get raw "daemonStateVersion") (JNum 0) /\
     (truthy (js_get raw "metadata") = false -> js_get machine "metadata" = JNull) /\
     (truthy (js_get raw "daemonState") = false ->
      js_get machine "daemonState" = JNull)).
Proof.
  intros Hdata raw. unfold getMachine. simpl.
  rewrite js_prop_defined by exact Hdata. simpl. fold raw.
  split; [by intros ->|]. intros Hraw Hmd Hds. rewrite Hraw. simpl.
  rewrite machine_of_defined by by apply truthy_not_nullish.
  pose proof Hmd as Hmd'. pose proof Hds as Hds'.
  apply parse_or_null_ok in Hmd' as [vm Hvm].
  apply parse_or_null_ok in Hds' as [vd Hvd].
  rewrite Hvm. simpl. rewrite Hvd. simpl.
  eexists. split; [reflexivity|]. simpl.
  repeat split; try discriminate.
  - intros Hfalsy. unfold parse_or_null in Hvm. rewrite Hfalsy in Hvm. congruence.
  - intros Hfalsy. unfold parse_or_null in Hvd. rewrite Hfalsy in Hvd. congruence.
Qed.

(** X22. Round trip through a server that stores what it is sent: provided
    [JSON.parse] reads back what [JSON.stringify] wrote for the metadata
    (and for the daemon state, when one is given),
    [createMachineOrGetExistingAsIs] returns a machine with the id and the
    metadata it was called with, and with the daemon state it was called
    with or [null] when it was called with none. *)
Theorem created_machine_round_trip opts rest :
  JSON_parse (JSON_stringify (o_metadata opts)) = inl (o_metadata opts) ->
  JSON_stringify (o_metadata opts) <> "" ->
  (truthy (o_daemonState opts) = true ->
   JSON_parse (JSON_stringify (o_daemonState opts)) = inl (o_daemonState opts) /\
   JSON_stringify (o_daemonState opts) <> "") ->
  exists machine,
    createMachineOrGetExistingAsIs opts (storing_server rest) = Returned machine /\
    js_get machine "id" = JStr (o_machineId opts) /\
    js_get machine "metadata" = o_metadata opts /\
    js_get machine "daemonState" =
      (if truthy (o_daemonState opts) then o_daemonState opts else JNull).
Proof.
  intros Hmd Hmd_text Hds.
  unfold createMachineOrGetExistingAsIs, storing_server, stored_machine,
    machine_request. simpl.
  rewrite machine_of_defined by reflexivity. simpl.
  unfold parse_or_null at 1. simpl.
  apply String.eqb_neq in Hmd_text. rewrite Hmd_text. simpl.
  unfold parseJSON. rewrite Hmd. simpl.
  destruct (truthy (o_daemonState opts)) eqn:Hgiven.
  - destruct (Hds eq_refl) as [Hparse Htext].
    unfold parse_or_null. simpl.
    apply String.eqb_neq in Htext. rewrite Htext. simpl.
    unfold parseJSON. rewrite Hparse. simpl.
    eexists. split; [reflexivity|]. repeat split.
  - unfold parse_or_null. simpl.
    eexists. split; [reflexivity|]. repeat split.
Qed.

(** [axios] settles a request by the status of the answer: neither call
    passes a [validateStatus] option, so the default applies, under which a
    status from 200 to 299 resolves with the response and every other
    status rejects with an [AxiosError]. *)
Definition validateStatus (status : Z) : bool :=
  (200 <=? status)%Z && (status <? 300)%Z.

Definition axios_settle (answer : HttpResponse) : completion HttpResponse :=
  if validateStatus (status answer) then Normal answer
  else Throw (ThrowError "AxiosError"
                ("Request failed with status code " +:+ show_Z (status answer))).

(** X23. [createMachineOrGetExistingAsIs] by the status the server answers
    with: the process is ended with exit code 1 exactly for a status from
    201 to 299; a status outside 200 to 299 never reaches the status test,
    the call throws the [AxiosError] of the request; with status 200 and a
    body without a machine the call throws a [TypeError], where
    [getMachine] returns [null] for the same answer. *)
Theorem exit_only_for_other_2xx opts answer :
  let result :=
    createMachineOrGetExistingAsIs opts (fun _ => axios_settle answer) in
  (result = Exited 1 <-> 200 < status answer < 300) /\
  (~ 200 <= status answer < 300 ->
   result = Thrown (ThrowError "AxiosError"
                      ("Request failed with status code "
                       +:+ show_Z (status answer)))) /\
  (status answer = 200 ->
   is_nullish (data answer) = false ->
   is_nullish (js_get (data answer) "machine") = true ->
   (exists msg, result = Thrown (ThrowError "TypeError" msg)) /\
   getMachine (axios_settle answer) = Normal JNull).
Proof.
  intros result. subst result.
  unfold createMachineOrGetExistingAsIs, axios_settle, validateStatus.
  destruct (Z.leb_spec 200 (status answer)) as [Hlow|Hlow];
    destruct (Z.ltb_spec (status answer) 300) as [Hhigh|Hhigh]; simpl.
  - destruct (Z.eqb_spec (status answer) 200) as [Heq|Hne]; simpl.
    + split; [|split].
      * split; [|lia].
        by destruct (c_bind _ _).
      * lia.
      * intros _ Hdata Hnone.
        unfold getMachine. simpl. rewrite js_prop_defined by exact Hdata. simpl.
        unfold machine_of, js_prop at 1. rewrite Hnone. simpl.
        split; [eauto|].
        by destruct (js_get (data answer) "machine").
    + split; [|split]; [split; [lia|reflexivity]|lia|lia].
  - split; [|split]; [split; [discriminate|lia]|reflexivity|lia].
  - split; [|split]; [split; [discriminate|lia]|reflexivity|lia].
  - split; [|split]; [split; [discriminate|lia]|reflexivity|lia].
Qed.

(** X24. For a response with status 200 whose body carries a machine
    record, [createMachineOrGetExistingAsIs] and [getMachine] decode it
    alike: one returns the machine the other returns, and throws what the
    other throws. *)
Theorem machine_decoded_alike opts post resp :
  post (machine_request opts) = Normal resp ->
  status resp = 200 ->
  is_nullish (data resp) = false ->
  truthy (js_get (data resp) "machine") = true ->
  createMachineOrGetExistingAsIs opts post =
  match getMachine (Normal resp) with
  | Normal machine => Returned machine
  | Throw e => Thrown e
  end.
Proof.
  intros Hpost Hstatus Hdata Hraw.
  unfold createMachineOrGetExistingAsIs, getMachine.
  rewrite Hpost, Hstatus. simpl.
  rewrite js_prop_defined by exact Hdata. simpl. by rewrite Hraw.
Qed.

(** X25. [getOrCreateSession] never lets a failure out as it is: whatever
    goes wrong (the request fails, the body or the session is missing, the
    metadata or the agent state does not decode), it throws an [Error]
    whose message starts with [Failed to get or create session: ],
    followed by the message of the failure when that is an [Error] and by
    [Unknown error] when it is any other thrown value. *)
Theorem session_failures_are_wrapped opts post :
  (forall outcome, getOrCreateSession opts post = Throw outcome ->
     exists detail,
       outcome = new_Error ("Failed to get or create session: " +:+ detail)) /\
  (forall name msg,
     post (session_request opts) = Throw (ThrowError name msg) ->
     getOrCreateSession opts post =
     Throw (new_Error ("Failed to get or create session: " +:+ msg))) /\
  (forall v,
     post (session_request opts) = Throw (ThrowValue v) ->
     getOrCreateSession opts post =
     Throw (new_Error "Failed to get or create session: Unknown error")).
Proof.
  unfold getOrCreateSession. repeat split.
  - intros outcome. destruct (session_try opts post); [discriminate|].
    intros [= <-]. eauto.
  - intros name msg Hpost. unfold session_try. by rewrite Hpost.
  - intros v Hpost. unfold session_try. by rewrite Hpost.
Qed.


End ApiClient.

(** ** The model at work *)

(** The specification's scenario for the updaters: the client holds version
    3, the first commit is refused with version 5 and the server's value,
    the second is accepted as version 6. The second commit carries the
    transform of the server's value and expects version 5. *)
Example rebase_then_success :
  let script := [fun _ : commit => AnsVersionMismatch 5 server_value;
                 fun _ : commit => AnsSuccess 6 (rename server_value)] in
  updateMachineMetadata sample_parse sample_stringify rename script sample_machine =
    (true, set_metadataVersion 6 (set_metadata (rename server_value) sample_machine)) /\
  map (metadataCommit sample_stringify rename)
      (attempts (updateMachineMetadata_attempt sample_parse sample_stringify rename)
                script sample_machine) =
    [mkCommit "machine-update-metadata" "m1"
              (sample_stringify (rename (metadata sample_machine))) 3;
     mkCommit "machine-update-metadata" "m1"
              (sample_stringify (rename server_value)) 5].
Proof. split; reflexivity. Qed.

(** A version mismatch whose value does not decode: the version has been
    adopted when [JSON.parse] throws, the value has not. *)
Example mismatch_with_undecodable_value :
  updateMachineMetadata_attempt sample_parse sample_stringify rename
    (fun _ => AnsVersionMismatch 5 (JStr "{")) sample_machine =
  (Throw (ThrowError "SyntaxError" "Unexpected end of JSON input"),
   set_metadataVersion 5 sample_machine).
Proof. reflexivity. Qed.

(** C1 at a version mismatch that reports version 5 with a value
    [JSON.parse] rejects, against local version 3 (0 for the daemon
    state). The mismatch branch assigns the version before it decodes the
    value, so when the attempt throws the machine holds version 5 beside
    the value it had before, and the retry commits the transform of that
    stale value with [expectedVersion] 5: the server's pair has not been
    adopted and the transform is not applied to the server's value. The
    success branch decodes first: at the same payload it leaves value and
    version as they were. *)
Theorem undecodable_mismatch_keeps_stale_value :
  updateMachineMetadata_attempt sample_parse sample_stringify rename
    (fun _ => AnsVersionMismatch 5 (JStr "{")) sample_machine =
  (Throw (ThrowError "SyntaxError" "Unexpected end of JSON input"),
   mkMachine "m1" (metadata sample_machine) 5 JNull 0 true 0 0 0) /\
  map (metadataCommit sample_stringify rename)
      (attempts (updateMachineMetadata_attempt sample_parse sample_stringify rename)
                [fun _ => AnsVersionMismatch 5 (JStr "{");
                 fun _ => AnsSuccess 6 (rename server_value)]
                sample_machine) =
    [mkCommit "machine-update-metadata" "m1"
              (sample_stringify (rename (metadata sample_machine))) 3;
     mkCommit "machine-update-metadata" "m1"
              (sample_stringify (rename (metadata sample_machine))) 5] /\
  updateDaemonState_attempt sample_parse sample_stringify rename
    (fun _ => AnsVersionMismatch 5 (JStr "{")) sample_machine =
  (Throw (ThrowError "SyntaxError" "Unexpected end of JSON input"),
   mkMachine "m1" (metadata sample_machine) 3 (daemonState sample_machine) 5
             true 0 0 0) /\
  map (daemonStateCommit sample_stringify rename)
      (attempts (updateDaemonState_attempt sample_parse sample_stringify rename)
                [fun _ => AnsVersionMismatch 5 (JStr "{");
                 fun _ => AnsSuccess 6 (rename server_value)]
                sample_machine) =
    [mkCommit "machine-update-state" "m1"
              (sample_stringify (rename (daemonState sample_machine))) 0;
     mkCommit "machine-update-state" "m1"
              (sample_stringify (rename (daemonState sample_machine))) 5] /\
  updateMachineMetadata_attempt sample_parse sample_stringify rename
    (fun _ => AnsSuccess 5 (JStr "{")) sample_machine =
  (Throw (ThrowError "SyntaxError" "Unexpected end of JSON input"),
   sample_machine).
Proof. repeat split. Qed.

Lemma version_mismatch_rebases_witness :
  snd (updateMachineMetadata_attempt sample_parse sample_stringify rename
         (fun _ => AnsVersionMismatch 5 server_value) sample_machine) =
    set_metadata server_value (set_metadataVersion 5 sample_machine) /\
  updateMachineMetadata sample_parse sample_stringify rename
    [fun _ => AnsVersionMismatch 5 server_value;
     fun _ => AnsSuccess 6 (rename server_value)] sample_machine =
  updateMachineMetadata sample_parse sample_stringify rename
    [fun _ => AnsSuccess 6 (rename server_value)]
    (set_metadata server_value (set_metadataVersion 5 sample_machine)).
Proof.
  destruct (version_mismatch_rebases sample_parse sample_stringify rename
              sample_machine 5 server_value
              (fun _ => AnsSuccess 6 (rename server_value)) [])
    as [(_ & _ & Hnewer) _].
  destruct (Hnewer ltac:(simpl; lia) server_value eq_refl) as (Hsnd & _ & Hretry).
  split; [exact Hsnd|exact Hretry].
Defined.

(** C2, as stated, fails: on the error outcome the attempt does not throw,
    and the operation completes at once. *)
Lemma error_ack_is_not_retried :
  ~ (exists e,
        fst (updateMachineMetadata_attempt sample_parse sample_stringify rename
               (fun _ => AnsError) sample_machine) = Throw e) /\
  updateMachineMetadata sample_parse sample_stringify rename
    [fun _ => AnsError] sample_machine = (true, sample_machine).
Proof. split; [intros [e He]; discriminate He|reflexivity]. Qed.

(** C3 at a spawn handler whose promise rejects with [undefined]: the
    handler is called, the [catch] block throws a [TypeError] on
    [error.message], and the response callback is never called. *)
Theorem rejection_with_undefined_is_unanswered :
  let out := on_rpc_request sample_parse sample_stringify sample_machine
               rejecting_handlers "m1:spawn-happy-session"
               (JStr (sample_stringify tmp_params)) in
  out = ([CallSpawnSession (JStr "/tmp") JUndefined],
         Throw (ThrowError "TypeError"
                  "Cannot read properties of undefined (reading 'message')")) /\
  responses (fst out) = [].
Proof. split; reflexivity. Qed.

(** C4, as stated, fails: an update event overwrites the local version with
    a smaller one. *)
Lemma stale_push_lowers_version :
  metadataVersion (mutate sample_parse sample_stringify sample_machine
                     (Push stale_update)) = 1 /\
  metadataVersion sample_machine = 3 /\
  ~ (metadataVersion sample_machine <=
     metadataVersion (mutate sample_parse sample_stringify sample_machine
                        (Push stale_update))).
Proof. repeat split. simpl. lia. Qed.

Lemma versions_grow_and_pairs_hold_witness :
  (metadataVersion sample_machine <=
   metadataVersion (mutations sample_parse sample_stringify sample_machine sample_writes) /\
   daemonStateVersion sample_machine <=
   daemonStateVersion (mutations sample_parse sample_stringify sample_machine sample_writes)) /\
  all_written_in_pairs sample_parse sample_stringify sample_machine sample_writes.
Proof.
  destruct (versions_grow_and_pairs_hold sample_parse sample_stringify
              sample_machine sample_writes) as [Hgrow Hpairs].
  split; [exact (Hgrow eq_refl)|]. apply Hpairs.
  repeat constructor; simpl; eauto.
Defined.


(** C7 at a stop-session request with params that do not decode, while no
    handler is bound: the response reports the params, not the handler. *)
Theorem stop_unbound_reports_params :
  on_rpc_request sample_parse sample_stringify sample_machine no_handlers
    "m1:stop-session" (JStr "{") =
  ([Respond (error_response sample_stringify "Unexpected end of JSON input")],
   Normal tt) /\
  error_response sample_stringify "Unexpected end of JSON input" <>
  error_response sample_stringify "Stop session handler not set".
Proof. split; [reflexivity|discriminate]. Qed.

Lemma update_frame_witness :
  on_update sample_parse
    (mkUpdateBody "update-machine" "m2" (Some (mkVersioned (JObj []) 9)) None)
    sample_machine = (Normal tt, sample_machine) /\
  (metadata (snd (on_update sample_parse
                    (mkUpdateBody "update-machine" "m1"
                       (Some (mkVersioned (JStr "{}") 9)) None)
                    sample_machine)) = JObj [] /\
   metadataVersion (snd (on_update sample_parse
                           (mkUpdateBody "update-machine" "m1"
                              (Some (mkVersioned (JStr "{}") 9)) None)
                           sample_machine)) = 9).
Proof.
  split.
  - destruct (update_frame sample_parse
                (mkUpdateBody "update-machine" "m2" (Some (mkVersioned (JObj []) 9)) None)
                sample_machine) as [Hother _].
    apply Hother. left. discriminate.
  - destruct (update_frame sample_parse
                (mkUpdateBody "update-machine" "m1"
                   (Some (mkVersioned (JStr "{}") 9)) None)
                sample_machine) as (_ & _ & _ & _ & _ & Hmatch & _).
    destruct (Hmatch eq_refl eq_refl) as [Hmeta _].
    exact (Hmeta _ (JObj []) eq_refl eq_refl).
Defined.

(** C8, as stated, fails: in an envelope for this machine whose metadata
    value [JSON.parse] rejects, the handler throws before it looks at the
    daemonState sub-update, which is not applied; the same sub-update
    without the metadata one is. *)
Lemma undecodable_metadata_drops_daemonState :
  on_update sample_parse
    (mkUpdateBody "update-machine" "m1" (Some (mkVersioned (JStr "{") 9))
                  (Some (mkVersioned (JObj []) 4)))
    sample_machine =
  (Throw (ThrowError "SyntaxError" "Unexpected end of JSON input"),
   sample_machine) /\
  on_update sample_parse
    (mkUpdateBody "update-machine" "m1" None (Some (mkVersioned (JObj []) 4)))
    sample_machine =
  (Normal tt, set_daemonStateVersion 4 (set_daemonState (JObj []) sample_machine)) /\
  ~ (daemonState sample_machine = JObj []) /\
  ~ (daemonStateVersion sample_machine = 4).
Proof. repeat split; discriminate. Qed.

Lemma stop_daemon_acknowledges_then_shuts_down_witness :
  history (loop_run sample_parse sample_stringify sample_machine
             (new_loop 0 working_handlers)
             [RpcRequest "m1:stop-daemon" JNull; Elapse 99; FireTimeout 0]) =
    [(0, SetTimeout ShutdownTask 100);
     (0, Respond (stop_daemon_ack sample_stringify))] /\
  history (loop_run sample_parse sample_stringify sample_machine
             (new_loop 0 working_handlers)
             [RpcRequest "m1:stop-daemon" JNull; Elapse 100; FireTimeout 0]) =
    [(100, CallRequestShutdown); (0, SetTimeout ShutdownTask 100);
     (0, Respond (stop_daemon_ack sample_stringify))].
Proof.
  destruct (stop_daemon_acknowledges_then_shuts_down sample_parse sample_stringify
              sample_machine working_handlers JNull 0 [])
    as (_ & _ & Hearly & Hdue).
  split; [exact (Hearly 99 ltac:(lia))|exact (Hdue _ eq_refl)].
Defined.

Lemma heartbeat_lifecycle_witness :
  size (intervals (live sample_machine
                     ([Socket Connect; Socket Disconnect] ++ connects 2))) = 1%nat /\
  intervals (live sample_machine
               ([Socket Connect; Socket Disconnect] ++ [Shutdown])) = ∅.
Proof.
  destruct (heartbeat_lifecycle sample_machine [Socket Connect; Socket Disconnect]
              2 0 ltac:(lia)) as [[Hone _] (_ & _ & Hnone)].
  split; [exact Hone|exact Hnone].
Defined.


(** ** More of the model at work *)



(** An update for [m1] whose metadata value is not JSON. *)
Definition broken_update : UpdateBody :=
  mkUpdateBody "update-machine" "m1" (Some (mkVersioned (JStr "{") 9))
               (Some (mkVersioned (JObj []) 4)).

Definition full_update : UpdateBody :=
  mkUpdateBody "update-machine" "m1" (Some (mkVersioned (JStr "{}") 9))
               (Some (mkVersioned (JObj []) 4)).

(** A response whose machine record has an id and nothing else. *)
Definition bare_machine_response : HttpResponse :=
  mkHttpResponse 200 "OK" (JObj [("machine", JObj [("id", JStr "m1")])]).

Definition tmp_machine_opts : MachineOpts := mkMachineOpts "m1" tmp_params JUndefined.





Lemma undecodable_params_reach_no_handler_witness :
  exists r,
    is_error_reply sample_stringify r /\
    on_rpc_request sample_parse sample_stringify sample_machine working_handlers
      "m1:spawn-happy-session" (JStr "{") = ([Respond r], Normal tt).
Proof.
  exact (undecodable_params_reach_no_handler sample_parse sample_stringify
           sample_machine working_handlers "m1:spawn-happy-session" (JStr "{")
           _ eq_refl (or_introl eq_refl)).
Defined.

Lemma success_is_adopted_witness :
  updateMachineMetadata sample_parse sample_stringify rename
    [fun _ => AnsSuccess 4 (JStr "{}"); fun _ => AnsError] sample_machine =
  (true, set_metadataVersion 4 (set_metadata (JObj []) sample_machine)).
Proof.
  destruct (success_is_adopted sample_parse sample_stringify rename sample_machine
              4 (JStr "{}") (JObj []) [fun _ => AnsError] eq_refl)
    as [[Hdone _] _].
  exact Hdone.
Defined.

Lemma undecodable_success_is_retried_witness :
  updateMachineMetadata_attempt sample_parse sample_stringify rename
    (fun _ => AnsSuccess 4 (JStr "{")) sample_machine =
  (Throw (ThrowError "SyntaxError" "Unexpected end of JSON input"), sample_machine).
Proof.
  destruct (undecodable_success_is_retried sample_parse sample_stringify rename
              sample_machine 4 (JStr "{") _ [] eq_refl) as [[Hthrows _] _].
  exact Hthrows.
Defined.

Lemma commits_of_one_call_witness :
  c_expectedVersion (metadataCommit sample_stringify rename sample_machine) <=
  c_expectedVersion
    (metadataCommit sample_stringify rename
       (set_metadata server_value (set_metadataVersion 5 sample_machine))).
Proof.
  destruct (commits_of_one_call sample_parse sample_stringify rename
              [fun _ => AnsVersionMismatch 5 server_value;
               fun _ => AnsSuccess 6 (rename server_value)]
              sample_machine 0 1 sample_machine
              (set_metadata server_value (set_metadataVersion 5 sample_machine))
              ltac:(lia)) as [Hmeta _].
  destruct (Hmeta eq_refl eq_refl) as (_ & _ & _ & Hle). exact Hle.
Defined.

Lemma undecodable_push_stops_the_handler_witness :
  on_update sample_parse broken_update sample_machine =
  (Throw (ThrowError "SyntaxError" "Unexpected end of JSON input"), sample_machine).
Proof.
  destruct (undecodable_push_stops_the_handler sample_parse broken_update
              sample_machine
              (ThrowError "SyntaxError" "Unexpected end of JSON input") eq_refl)
    as [Hmeta _].
  exact (Hmeta _ eq_refl eq_refl).
Defined.

Lemma full_update_overrides_witness :
  on_update sample_parse full_update
    (snd (on_update sample_parse stale_update sample_machine)) =
  on_update sample_parse full_update sample_machine.
Proof.
  destruct (full_update_overrides sample_parse stale_update full_update
              sample_machine _ _ (JObj []) (JObj [])
              eq_refl eq_refl eq_refl eq_refl eq_refl) as [Hsame _].
  exact Hsame.
Defined.

Lemma local_port_becomes_8082_witness :
  generateWebAuthUrl "http://localhost:3005" "KEY" =
  "http://localhost:8082/terminal/connect#key=KEY".
Proof.
  exact (local_port_becomes_8082 "http://localhost" "3005" "KEY"
           eq_refl ltac:(discriminate) eq_refl).
Defined.

Lemma url_without_final_port_witness :
  generateWebAuthUrl "http://localhost:3005/" "KEY" =
  "http://localhost:3005//terminal/connect#key=KEY".
Proof.
  exact (url_without_final_port "http://localhost:3005" "/"%char "KEY" eq_refl).
Defined.

Lemma getMachine_defaults_witness :
  exists machine,
    getMachine sample_parse (Normal bare_machine_response) = Normal machine /\
    js_get machine "metadataVersion" = JNum 0 /\
    js_get machine "metadata" = JNull.
Proof.
  destruct (getMachine_defaults sample_parse bare_machine_response eq_refl)
    as [_ Hrecord].
  destruct (Hrecord eq_refl (or_introl eq_refl) (or_introl eq_refl))
    as (machine & Hget & _ & _ & Hversion & _ & Hmetadata & _).
  exists machine. split; [exact Hget|]. split; [exact Hversion|].
  exact (Hmetadata eq_refl).
Defined.

Lemma created_machine_round_trip_witness :
  exists machine,
    createMachineOrGetExistingAsIs sample_parse sample_stringify tmp_machine_opts
      (storing_server []) = Returned machine /\
    js_get machine "metadata" = tmp_params /\
    js_get machine "daemonState" = JNull.
Proof.
  destruct (created_machine_round_trip sample_parse sample_stringify
              tmp_machine_opts [] eq_refl ltac:(discriminate)
              ltac:(discriminate))
    as (machine & Hcreate & _ & Hmetadata & Hstate).
  exists machine. split; [exact Hcreate|]. split; [exact Hmetadata|exact Hstate].
Defined.

Lemma exit_only_for_other_2xx_witness :
  createMachineOrGetExistingAsIs sample_parse sample_stringify tmp_machine_opts
    (fun _ => axios_settle (mkHttpResponse 201 "Created" JNull)) = Exited 1 /\
  createMachineOrGetExistingAsIs sample_parse sample_stringify tmp_machine_opts
    (fun _ => axios_settle (mkHttpResponse 409 "Conflict" JNull)) =
  Thrown (ThrowError "AxiosError" "Request failed with status code 409").
Proof.
  split.
  - destruct (exit_only_for_other_2xx sample_parse sample_stringify
                tmp_machine_opts (mkHttpResponse 201 "Created" JNull))
      as [Hexit _].
    apply Hexit. simpl. lia.
  - destruct (exit_only_for_other_2xx sample_parse sample_stringify
                tmp_machine_opts (mkHttpResponse 409 "Conflict" JNull))
      as (_ & Hthrown & _).
    apply Hthrown. simpl. lia.
Defined.

Lemma machine_decoded_alike_witness :
  createMachineOrGetExistingAsIs sample_parse sample_stringify tmp_machine_opts
    (fun _ => Normal bare_machine_response) =
  match getMachine sample_parse (Normal bare_machine_response) with
  | Normal machine => Returned machine
  | Throw e => Thrown e
  end.
Proof.
  exact (machine_decoded_alike sample_parse sample_stringify tmp_machine_opts
           (fun _ => Normal bare_machine_response) bare_machine_response
           eq_refl eq_refl eq_refl eq_refl).
Defined.

